(** * Lambda log interpretation: classifier, grouper and sorter

    A shallow embedding of the log pipeline of the console's function-log
    data layer ([useLogsQuery], [sortLogs], [parseLogMetadata] and the
    matchers it calls, [groupLogs]), with the properties of the pipeline
    stated against it.

    JavaScript strings are sequences of UTF-16 code units; they are
    modelled as lists of code units, so that [trim], [split], [startsWith],
    the regular expressions and [<] on strings are the ones the engine
    evaluates. *)

From Stdlib Require Import List NArith ZArith Bool Lia String Ascii.
From Stdlib Require Import Permutation Sorted.
Import ListNotations.

Set Implicit Arguments.

(** ** JavaScript string primitives *)

Module JS.

Definition char := N.
Definition jsstring := list char.

(** An ASCII literal as a JavaScript string. *)
Definition str (s : string) : jsstring :=
  map N_of_ascii (list_ascii_of_string s).

Definition TAB : char := 9%N.
Definition LF : char := 10%N.
Definition SPACE : char := 32%N.

Fixpoint eqb (a b : jsstring) : bool :=
  match a, b with
  | [], [] => true
  | x :: a', y :: b' => N.eqb x y && eqb a' b'
  | _, _ => false
  end.

(** [a < b] on strings: lexicographic on code units. *)
Fixpoint ltb (a b : jsstring) : bool :=
  match a, b with
  | _, [] => false
  | [], _ :: _ => true
  | x :: a', y :: b' =>
      if N.ltb x y then true
      else if N.ltb y x then false
      else ltb a' b'
  end.

(** WhiteSpace and LineTerminator code points: what [trim] strips and
    what [\s] matches. *)
Definition isWhiteSpace (c : char) : bool :=
  existsb (N.eqb c)
    [9; 10; 11; 12; 13; 32; 160; 5760;
     8192; 8193; 8194; 8195; 8196; 8197; 8198; 8199; 8200; 8201; 8202;
     8232; 8233; 8239; 8287; 12288; 65279]%N.

Fixpoint trimStart (s : jsstring) : jsstring :=
  match s with
  | c :: r => if isWhiteSpace c then trimStart r else s
  | [] => []
  end.

Definition trimEnd (s : jsstring) : jsstring := rev (trimStart (rev s)).

Definition trim (s : jsstring) : jsstring := trimEnd (trimStart s).

Fixpoint startsWith (p s : jsstring) : bool :=
  match p, s with
  | [], _ => true
  | x :: p', y :: s' => N.eqb x y && startsWith p' s'
  | _ :: _, [] => false
  end.

(** [s.substr(start, len)] for non-negative arguments. *)
Definition substr (start len : nat) (s : jsstring) : jsstring :=
  firstn len (skipn start s).

(** [s.split(sep)] for a one-character separator: never empty. *)
Fixpoint split (sep : char) (s : jsstring) : list jsstring :=
  match s with
  | [] => [[]]
  | c :: r =>
      if N.eqb c sep then [] :: split sep r
      else match split sep r with
           | h :: t => (c :: h) :: t
           | [] => [[c]]
           end
  end.

(** [parts.join(sep)]. *)
Fixpoint join (sep : jsstring) (parts : list jsstring) : jsstring :=
  match parts with
  | [] => []
  | [x] => x
  | x :: r => x ++ sep ++ join sep r
  end.

(** [parts.slice(n)]. *)
Definition slice (n : nat) (parts : list jsstring) : list jsstring :=
  skipn n parts.

Definition isDigit (c : char) : bool := (N.leb 48 c && N.leb c 57)%N.

(** The class [[0-9a-fA-F-]]. *)
Definition isHexOrDash (c : char) : bool :=
  isDigit c || (N.leb 97 c && N.leb c 102) || (N.leb 65 c && N.leb c 70)
  || N.eqb c 45.

(** A fixed-width template: [d] stands for [\d], any other character
    for itself; the match is anchored at both ends. *)
Fixpoint matchTemplate (t s : jsstring) : bool :=
  match t, s with
  | [], [] => true
  | x :: t', c :: s' =>
      (if N.eqb x 100 then isDigit c else N.eqb x c) && matchTemplate t' s'
  | _, _ => false
  end.

(** [/^\d{4}-\d{2}-\d{2}T\d{2}:\d{2}:\d{2}\.\d{3}Z$/] *)
Definition isIsoTimestamp (s : jsstring) : bool :=
  matchTemplate (str "dddd-dd-ddTdd:dd:dd.dddZ") s.

(** [/^\d{4}-\d{2}-\d{2}T\d{2}:\d{2}:\d{2}(\.\d{1,3})?Z$/] *)
Definition isIsoTimestampOptFraction (s : jsstring) : bool :=
  matchTemplate (str "dddd-dd-ddTdd:dd:ddZ") s
  || matchTemplate (str "dddd-dd-ddTdd:dd:dd.dZ") s
  || matchTemplate (str "dddd-dd-ddTdd:dd:dd.ddZ") s
  || matchTemplate (str "dddd-dd-ddTdd:dd:dd.dddZ") s.

(** [/^[0-9a-fA-F-]{36}$/] *)
Definition isRequestId (s : jsstring) : bool :=
  Nat.eqb (List.length s) 36 && forallb isHexOrDash s.

Definition tracebackText : jsstring :=
  str "Traceback (most recent call last):".

(** [/\sTraceback \(most recent call last\):\s/], unanchored. *)
Fixpoint hasTraceback (s : jsstring) : bool :=
  match s with
  | [] => false
  | c :: r =>
      (isWhiteSpace c && startsWith tracebackText r
       && match nth_error r (List.length tracebackText) with
          | Some d => isWhiteSpace d
          | None => false
          end)
      || hasTraceback r
  end.

End JS.

Import JS.

(** ** Data model *)

(** [Log.level]; [Invocation.logLevel] only ever takes the last three. *)
Inductive Level := START | END | REPORT | INFO | WARN | ERROR.

Definition Level_eqb (a b : Level) : bool :=
  match a, b with
  | START, START | END, END | REPORT, REPORT
  | INFO, INFO | WARN, WARN | ERROR, ERROR => true
  | _, _ => false
  end.

(** A raw CloudWatch event, as [FilterLogEvents] returns it. *)
Module Event.
Record t := mk {
  eventId : jsstring;
  logStreamName : jsstring;
  timestamp : Z;
  message : jsstring
}.
End Event.

(** [Log.invocationMetadata]. *)
Module Meta.
Record t := mk {
  duration : option jsstring;
  memSize : option jsstring;
  memUsed : option jsstring;
  xrayTraceId : option jsstring;
  isFailed : option bool
}.

(** The object literal [{}]. *)
Definition empty : t := mk None None None None None.

Definition set_duration v (m : t) :=
  mk v (memSize m) (memUsed m) (xrayTraceId m) (isFailed m).
Definition set_memSize v (m : t) :=
  mk (duration m) v (memUsed m) (xrayTraceId m) (isFailed m).
Definition set_memUsed v (m : t) :=
  mk (duration m) (memSize m) v (xrayTraceId m) (isFailed m).
Definition set_xrayTraceId v (m : t) :=
  mk (duration m) (memSize m) (memUsed m) v (isFailed m).
Definition set_isFailed v (m : t) :=
  mk (duration m) (memSize m) (memUsed m) (xrayTraceId m) v.
End Meta.

(** The type [Log]: a classified line. [level] is unset while the matchers
    run. *)
Module Log.
Record t := mk {
  id : jsstring;
  message : jsstring;
  timestamp : Z;
  level : option Level;
  requestId : option jsstring;
  logStream : jsstring;
  invocationMetadata : option Meta.t
}.

Definition set_message v (l : t) :=
  mk (id l) v (timestamp l) (level l) (requestId l) (logStream l)
     (invocationMetadata l).
Definition set_level v (l : t) :=
  mk (id l) (message l) (timestamp l) (Some v) (requestId l) (logStream l)
     (invocationMetadata l).
Definition set_requestId v (l : t) :=
  mk (id l) (message l) (timestamp l) (level l) v (logStream l)
     (invocationMetadata l).
Definition set_invocationMetadata v (l : t) :=
  mk (id l) (message l) (timestamp l) (level l) (requestId l) (logStream l)
     (Some v).

(** [log.invocationMetadata || {}] *)
Definition metadataOrEmpty (l : t) : Meta.t :=
  match invocationMetadata l with
  | Some m => m
  | None => Meta.empty
  end.

(** Truthiness of [log.level]: a level is a non-empty string. *)
Definition hasLevel (l : t) : bool :=
  match level l with
  | Some _ => true
  | None => false
  end.
End Log.

(** The type [Invocation]. The numeric-looking fields hold the strings the
    REPORT line carries. *)
Module Invocation.
Record t := mk {
  logs : list jsstring;
  requestId : option jsstring;
  logStream : option jsstring;
  firstLineTime : option Z;
  startTime : option Z;
  endTime : option Z;
  duration : option jsstring;
  memSize : option jsstring;
  memUsed : option jsstring;
  xrayTraceId : option jsstring;
  logLevel : Level
}.

(** The literal [{ logs: [], logLevel: "INFO" }]. *)
Definition fresh : t :=
  mk [] None None None None None None None None None INFO.
End Invocation.

(** ** Line classifier *)

(** [part => { ... }] of [parseLambdaREPORT]: one tab segment. *)
Definition reportPart (md : Meta.t) (part : jsstring) : Meta.t :=
  let part := trim part in
  if startsWith (str "Duration") part then
    Meta.set_duration (nth_error (split SPACE part) 1) md
  else if startsWith (str "Memory Size") part then
    Meta.set_memSize (nth_error (split SPACE part) 2) md
  else if startsWith (str "Max Memory Used") part then
    Meta.set_memUsed (nth_error (split SPACE part) 3) md
  else if startsWith (str "XRAY TraceId") part then
    Meta.set_xrayTraceId (nth_error (split SPACE part) 2) md
  else md.

Definition parseLambdaSTART (log : Log.t) : Log.t :=
  if startsWith (str "START RequestId: ") (Log.message log) then
    Log.set_requestId (Some (substr 17 36 (Log.message log)))
      (Log.set_level START log)
  else log.

Definition parseLambdaEND (log : Log.t) : Log.t :=
  if startsWith (str "END RequestId: ") (Log.message log) then
    Log.set_requestId (Some (substr 15 36 (Log.message log)))
      (Log.set_level END log)
  else log.

Definition parseLambdaREPORT (log : Log.t) : Log.t :=
  if startsWith (str "REPORT RequestId: ") (Log.message log) then
    let log := Log.set_level REPORT log in
    let log := Log.set_requestId (Some (substr 18 36 (Log.message log))) log in
    Log.set_invocationMetadata
      (fold_left reportPart (split TAB (Log.message log))
         (Log.metadataOrEmpty log))
      log
  else log.

Definition parseLambdaTimeoutOrMessage (log : Log.t)
    (spcParts : list jsstring) : Log.t :=
  if (3 <=? List.length spcParts)%nat
     && isIsoTimestamp (nth 0 spcParts [])
     && isRequestId (nth 1 spcParts [])
  then
    let message := join [SPACE] (slice 2 spcParts) in
    let isFailed := startsWith (str "Task timed out after") message in
    let log := Log.set_requestId (Some (nth 1 spcParts [])) log in
    let log := Log.set_level (if isFailed then ERROR else INFO) log in
    let log := Log.set_message message log in
    let md := Log.metadataOrEmpty log in
    Log.set_invocationMetadata
      (Meta.set_isFailed
         (match Meta.isFailed md with
          | Some true => Some true
          | _ => Some isFailed
          end) md)
      log
  else log.

Definition parseLambdaExited (log : Log.t) (spcParts : list jsstring)
    : Log.t :=
  if (3 <=? List.length spcParts)%nat
     && JS.eqb (nth 0 spcParts []) (str "RequestId:")
     && isRequestId (nth 1 spcParts [])
  then
    let message := join [SPACE] (slice 2 spcParts) in
    let log := Log.set_requestId (Some (nth 1 spcParts [])) log in
    let log := Log.set_level ERROR log in
    let log := Log.set_message message log in
    Log.set_invocationMetadata
      (Meta.set_isFailed (Some true) (Log.metadataOrEmpty log)) log
  else log.

Definition parseLambdaUnknownApplicationError (log : Log.t) : Log.t :=
  if startsWith (str "Unknown application error occurred") (Log.message log)
  then
    let log := Log.set_level ERROR log in
    Log.set_invocationMetadata (Log.metadataOrEmpty log) log
  else log.

Definition parseLambdaModuleInitializationError (log : Log.t) : Log.t :=
  if startsWith (str "module initialization error") (Log.message log) then
    let log := Log.set_level ERROR log in
    Log.set_invocationMetadata (Log.metadataOrEmpty log) log
  else log.

(** How a call completes: normally, or by an exception; either way the
    [log] object carries the writes made so far. *)
Inductive Completion :=
| Normal (log : Log.t)
| Throw (log : Log.t).

Definition andThen (c : Completion) (k : Log.t -> Completion) : Completion :=
  match c with
  | Normal log => k log
  | Throw log => Throw log
  end.

(** What the [try { ... } catch (e) { }] of [parseLogMetadata] leaves. *)
Definition caught (c : Completion) : Log.t :=
  match c with
  | Normal log => log
  | Throw log => log
  end.

(** Strictness of the code an assignment sits in. An assignment to an
    identifier that no scope declares raises a ReferenceError in strict
    code and creates a global in sloppy code. *)
Inductive CodeMode := Strict | Sloppy.

(** [parseLambdaNodeLog]. Its first statement is
    [log.requestId = requestId = ...], and [requestId] is declared nowhere
    in the file: the inner assignment is evaluated first, so in strict
    code the exception leaves before [log.requestId] is written. *)
Definition parseLambdaNodeLog (mode : CodeMode) (log : Log.t)
    (tabParts : list jsstring) : Completion :=
  if (3 <=? List.length tabParts)%nat
     && isIsoTimestamp (nth 0 tabParts [])
  then
    match mode with
    | Strict => Throw log
    | Sloppy =>
        let log :=
          Log.set_requestId
            (if isRequestId (nth 1 tabParts [])
             then Some (nth 1 tabParts [])
             else None) log in
        if JS.eqb (nth 2 tabParts []) (str "INFO") then
          Normal (Log.set_message (join [TAB] (slice 3 tabParts))
                    (Log.set_level INFO log))
        else if JS.eqb (nth 2 tabParts []) (str "WARN") then
          Normal (Log.set_message (join [TAB] (slice 3 tabParts))
                    (Log.set_level WARN log))
        else if JS.eqb (nth 2 tabParts []) (str "ERROR") then
          Normal (Log.set_message (join [TAB] (slice 3 tabParts))
                    (Log.set_level ERROR log))
        else
          Normal (Log.set_message (join [TAB] (slice 2 tabParts))
                    (Log.set_level INFO log))
    end
  else Normal log.

Definition parseLambdaPythonLog (log : Log.t) (tabParts : list jsstring)
    : Log.t :=
  if (4 <=? List.length tabParts)%nat
     && isIsoTimestampOptFraction (nth 1 tabParts [])
     && isRequestId (nth 2 tabParts [])
  then
    let log := Log.set_requestId (Some (nth 2 tabParts [])) log in
    let log :=
      if JS.eqb (nth 0 tabParts []) (str "[INFO]") then
        Log.set_level INFO log
      else if JS.eqb (nth 0 tabParts []) (str "[WARNING]") then
        Log.set_level WARN log
      else if JS.eqb (nth 0 tabParts []) (str "[ERROR]")
              || JS.eqb (nth 0 tabParts []) (str "[CRITICAL]") then
        Log.set_level ERROR log
      else Log.set_level INFO log in
    Log.set_message
      (nth 0 tabParts [] ++ [SPACE] ++ join [TAB] (slice 3 tabParts)) log
  else log.

Definition parseLambdaPythonTraceback (log : Log.t) : Log.t :=
  if hasTraceback (Log.message log) then
    let log := Log.set_level ERROR log in
    Log.set_invocationMetadata
      (Meta.set_isFailed (Some true) (Log.metadataOrEmpty log)) log
  else log.

(** [parseLogMetadata]. Every matcher returns [undefined], so in a chain
    [a(log) || b(log) || c(log)] all of them are called, in order; only a
    leading [log.level ||] can cut a chain short. *)
Definition parseLogMetadataIn (mode : CodeMode) (event : Event.t)
    (runtime : jsstring) : Log.t :=
  let log :=
    Log.mk (Event.eventId event) (trim (Event.message event))
      (Event.timestamp event) None None (Event.logStreamName event) None in
  let log :=
    caught
      (let log := parseLambdaREPORT (parseLambdaEND (parseLambdaSTART log)) in
       let spcParts := split SPACE (Log.message log) in
       let log :=
         if Log.hasLevel log then log
         else
           parseLambdaTimeoutOrMessage
             (parseLambdaExited
                (parseLambdaModuleInitializationError
                   (parseLambdaUnknownApplicationError log))
                spcParts)
             spcParts in
       let tabParts := split TAB (Log.message log) in
       andThen
         (if startsWith (str "nodejs") runtime then
            if Log.hasLevel log then Normal log
            else parseLambdaNodeLog mode log tabParts
          else Normal log)
         (fun log =>
            Normal
              (if startsWith (str "python") runtime then
                 if Log.hasLevel log then log
                 else
                   parseLambdaPythonTraceback
                     (parseLambdaPythonLog log tabParts)
               else log))) in
  if Log.hasLevel log then log else Log.set_level INFO log.

(** The file is an ES module (it has [import] and [export]), and module
    code is strict. *)
Definition moduleMode : CodeMode := Strict.

Definition parseLogMetadata : Event.t -> jsstring -> Log.t :=
  parseLogMetadataIn moduleMode.

(** ** Event normalizer *)

(** [compareFn] results are only inspected for their sign; a stable sort
    (as [Array.prototype.sort] is) with a consistent comparator has one
    possible result, computed here by insertion from the right. *)
Section Sort.
Variable A : Type.
Variable compareFn : A -> A -> Z.

Fixpoint insertSorted (x : A) (l : list A) : list A :=
  match l with
  | [] => [x]
  | y :: r =>
      if (compareFn x y <=? 0)%Z then x :: l else y :: insertSorted x r
  end.

Definition sort (l : list A) : list A := fold_right insertSorted [] l.
End Sort.

(** [uniqBy(events, fn)] of remeda: the first element of each key is
    kept. *)
Fixpoint uniqByAux (A : Type) (key : A -> jsstring) (seen : list jsstring)
    (l : list A) : list A :=
  match l with
  | [] => []
  | x :: r =>
      if existsb (JS.eqb (key x)) seen then uniqByAux key seen r
      else x :: uniqByAux key (key x :: seen) r
  end.

Definition uniqBy (A : Type) (l : list A) (key : A -> jsstring) : list A :=
  uniqByAux key [] l.

(** The template literal [`${log.logStreamName}-${log.eventId}`]. *)
Definition sortKey (log : Event.t) : jsstring :=
  Event.logStreamName log ++ str "-" ++ Event.eventId log.

Definition compareSortKey (logA logB : Event.t) : Z :=
  if JS.ltb (sortKey logA) (sortKey logB) then (-1)%Z
  else if JS.ltb (sortKey logB) (sortKey logA) then 1%Z
  else 0%Z.

Definition sortLogs (logs : list Event.t) : list Event.t :=
  sort compareSortKey logs.

(** ** Invocation grouper and sorter *)

(** [a || b] on optional strings: [undefined] and the empty string are
    falsy. *)
Definition orString (a b : option jsstring) : option jsstring :=
  match a with
  | Some (_ :: _) => a
  | _ => b
  end.

(** [a || n] on an optional number and a number: [undefined] and [0] are
    falsy. *)
Definition orNumber (a : option Z) (n : Z) : option Z :=
  match a with
  | Some t => if (t =? 0)%Z then Some n else a
  | None => Some n
  end.

(** [log.logStream !== currentInvocation.logStream] *)
Definition streamDiffers (log : Log.t) (currentInvocation : Invocation.t)
    : bool :=
  match Invocation.logStream currentInvocation with
  | Some s => negb (JS.eqb (Log.logStream log) s)
  | None => true
  end.

(** [currentInvocation.logs.length > 0 && invocations.push(currentInvocation)] *)
Definition pushIfAny (invocations : list Invocation.t)
    (currentInvocation : Invocation.t) : list Invocation.t :=
  match Invocation.logs currentInvocation with
  | [] => invocations
  | _ :: _ => invocations ++ [currentInvocation]
  end.

(** [log.invocationMetadata?.f] *)
Definition metaField (f : Meta.t -> option jsstring) (log : Log.t)
    : option jsstring :=
  match Log.invocationMetadata log with
  | Some m => f m
  | None => None
  end.

(** The state of the loop of [groupLogs]: the [invocations] pushed so far
    and [currentInvocation]. *)
Definition GroupState := (list Invocation.t * Invocation.t)%type.

Definition groupInit : GroupState := ([], Invocation.fresh).

(** The body of [logs.forEach(log => { ... })]. *)
Definition groupStep (st : GroupState) (log : Log.t) : GroupState :=
  let '(invocations, cur) := st in
  let '(invocations, cur) :=
    if streamDiffers log cur
    then (pushIfAny invocations cur, Invocation.fresh)
    else (invocations, cur) in
  match Log.level log with
  | Some START =>
      (pushIfAny invocations cur,
       Invocation.mk [Log.message log] (Log.requestId log)
         (Some (Log.logStream log)) (Some (Log.timestamp log))
         (Some (Log.timestamp log)) None None None None None INFO)
  | Some REPORT =>
      (invocations ++
         [Invocation.mk (Invocation.logs cur ++ [Log.message log])
            (orString (Invocation.requestId cur) (Log.requestId log))
            (Some (Log.logStream log))
            (orNumber (Invocation.firstLineTime cur) (Log.timestamp log))
            (Invocation.startTime cur)
            (Some (Log.timestamp log))
            (metaField Meta.duration log)
            (metaField Meta.memSize log)
            (metaField Meta.memUsed log)
            (metaField Meta.xrayTraceId log)
            (Invocation.logLevel cur)],
       Invocation.fresh)
  | level =>
      (invocations,
       Invocation.mk (Invocation.logs cur ++ [Log.message log])
         (orString (Invocation.requestId cur) (Log.requestId log))
         (Some (Log.logStream log))
         (orNumber (Invocation.firstLineTime cur) (Log.timestamp log))
         (Invocation.startTime cur)
         (Invocation.endTime cur)
         (Invocation.duration cur)
         (Invocation.memSize cur)
         (Invocation.memUsed cur)
         (Invocation.xrayTraceId cur)
         (match level with
          | Some ERROR => ERROR
          | Some WARN =>
              if Level_eqb (Invocation.logLevel cur) ERROR then INFO
              else WARN
          | _ => INFO
          end))
  end.

(** The [invocations] array just before the final sort, in push order. *)
Definition flushed (logs : list Log.t) : list Invocation.t :=
  let '(invocations, cur) := fold_left groupStep logs groupInit in
  pushIfAny invocations cur.

(** [(a, b) => b.firstLineTime - a.firstLineTime]; a NaN result (an
    operand [undefined]) counts as [+0] for the sort. *)
Definition compareFirstLineTime (a b : Invocation.t) : Z :=
  match Invocation.firstLineTime b, Invocation.firstLineTime a with
  | Some tb, Some ta => (tb - ta)%Z
  | _, _ => 0%Z
  end.

Definition groupLogs (logs : list Log.t) : list Invocation.t :=
  sort compareFirstLineTime (flushed logs).

(** The data [useLogsQuery] returns for the [events] of the fetched pages
    and [opts.runtime]. *)
Definition useLogsQuery (events : list Event.t) (runtime : jsstring)
    : list Invocation.t :=
  let unique := uniqBy events Event.eventId in
  let sorted := sortLogs unique in
  let parsed := map (fun event => parseLogMetadata event runtime) sorted in
  groupLogs parsed.

(** ** Vocabulary of the properties *)

(** Two entries in presentation order: both carry a first-line time and
    the earlier entry's is not smaller. *)
Definition timeGe (a b : Invocation.t) : Prop :=
  match Invocation.firstLineTime a, Invocation.firstLineTime b with
  | Some ta, Some tb => (ta >= tb)%Z
  | _, _ => False
  end.

Definition hasFirstLineTime (t : Z) (inv : Invocation.t) : bool :=
  match Invocation.firstLineTime inv with
  | Some u => (u =? t)%Z
  | None => false
  end.

(** What the loop of [groupLogs] maintains about a state. *)
Definition wellFormed (inv : Invocation.t) : Prop :=
  Invocation.logs inv <> [] /\ Invocation.firstLineTime inv <> None.

Definition groupInvariant (st : GroupState) : Prop :=
  Forall wellFormed (fst st)
  /\ (Invocation.logs (snd st) <> [] ->
      Invocation.firstLineTime (snd st) <> None).

(** All the messages a state holds, in the order they were appended. *)
Definition messagesOf (st : GroupState) : list jsstring :=
  List.concat (map Invocation.logs (fst st)) ++ Invocation.logs (snd st).

(** The conditions under which the matchers of [parseLogMetadata] fire,
    as they read the (trimmed) message. *)
Definition isExitedLine (spcParts : list jsstring) : bool :=
  (3 <=? List.length spcParts)%nat
  && JS.eqb (nth 0 spcParts []) (str "RequestId:")
  && isRequestId (nth 1 spcParts []).

Definition isTimeoutOrMessageLine (spcParts : list jsstring) : bool :=
  (3 <=? List.length spcParts)%nat
  && isIsoTimestamp (nth 0 spcParts [])
  && isRequestId (nth 1 spcParts []).

Definition isNodeLine (tabParts : list jsstring) : bool :=
  (3 <=? List.length tabParts)%nat && isIsoTimestamp (nth 0 tabParts []).

Definition isPythonLine (tabParts : list jsstring) : bool :=
  (4 <=? List.length tabParts)%nat
  && isIsoTimestampOptFraction (nth 1 tabParts [])
  && isRequestId (nth 2 tabParts []).

(** The matchers that run for every runtime. *)
Definition matchesGeneric (message : jsstring) : bool :=
  startsWith (str "START RequestId: ") message
  || startsWith (str "END RequestId: ") message
  || startsWith (str "REPORT RequestId: ") message
  || startsWith (str "Unknown application error occurred") message
  || startsWith (str "module initialization error") message
  || isExitedLine (split SPACE message)
  || isTimeoutOrMessageLine (split SPACE message).

(** The matchers the runtime selects. *)
Definition matchesFamily (runtime message : jsstring) : bool :=
  (startsWith (str "nodejs") runtime && isNodeLine (split TAB message))
  || (startsWith (str "python") runtime
      && (isPythonLine (split TAB message) || hasTraceback message)).

Definition matchesAny (runtime message : jsstring) : bool :=
  matchesGeneric message || matchesFamily runtime message.

(** The order [sortLogs] sorts by: the later event's key is not below the
    earlier one's. *)
Definition keyLe (a b : Event.t) : Prop :=
  JS.ltb (sortKey b) (sortKey a) = false.

(** The REPORT metadata of a message: [{}] after the tab segments have
    been read. *)
Definition reportMetadata (message : jsstring) : Meta.t :=
  fold_left reportPart (split TAB message) Meta.empty.

(** ** Sample inputs *)

Definition sampleRequestId : jsstring :=
  str "cc81b998-c7de-46fb-a9ef-3423ccdcda98".

Definition sampleStream : jsstring :=
  str "2022/02/01/[$LATEST]3b66f77bc3f24fee8ccd70dd7315144e".

(** Tab-separated fields. *)
Definition tabbed (fields : list string) : jsstring :=
  join [TAB] (map str fields).

(** A line nothing matches, with the newline CloudWatch messages end
    in. *)
Definition plainEvent : Event.t :=
  Event.mk (str "1") sampleStream 1000 (str "hello" ++ [LF]).

(** An INFO line, an ERROR line, an INFO line of one stream. *)
Definition infoErrorInfo : list Event.t :=
  [ Event.mk (str "1") sampleStream 1000 (str "hello" ++ [LF]);
    Event.mk (str "2") sampleStream 1001
      (str "Unknown application error occurred" ++ [LF]);
    Event.mk (str "3") sampleStream 1002 (str "bye" ++ [LF]) ].

(** A Node.js 10.x [console.error] line. *)
Definition nodeErrorEvent : Event.t :=
  Event.mk (str "1") sampleStream 1000
    (tabbed ["2019-11-12T20:00:30.184Z";
             "cc81b998-c7de-46fb-a9ef-3423ccdcda98";
             "ERROR"; "error hello"]%string ++ [LF]).

(** What [logger.warning(traceback.format_exc())] writes under the Python
    runtime. *)
Definition pythonTracebackText : jsstring :=
  str "Traceback (most recent call last):" ++ [LF]
  ++ str "  File handler.py, line 2, in main" ++ [LF]
  ++ str "ZeroDivisionError: division by zero".

Definition pythonWarningEvent : Event.t :=
  Event.mk (str "1") sampleStream 1000
    (tabbed ["[WARNING]"; "2019-11-12T20:00:30.183Z";
             "cc81b998-c7de-46fb-a9ef-3423ccdcda98"]%string
     ++ [TAB] ++ pythonTracebackText ++ [LF]).

(** Two streams, the name of one a prefix of the other's. *)
Definition prefixStreams : list Event.t :=
  [ Event.mk (str "1") (str "web") 1000 (str "a");
    Event.mk (str "2") (str "web-2") 1001 (str "b");
    Event.mk (str "3") (str "web") 1002 (str "c") ].

Definition timeoutEvent : Event.t :=
  Event.mk (str "1") sampleStream 1000
    (str "2022-01-01T00:00:00.000Z abcdefab-abcd-abcd-abcd-abcdefabcdef Task timed out after 6.00 seconds").

Definition reportEvent : Event.t :=
  Event.mk (str "1") sampleStream 1000
    (tabbed ["REPORT RequestId: cc81b998-c7de-46fb-a9ef-3423ccdcda98";
             "Duration: 1 ms"; "Memory Size: 128 MB";
             "Max Memory Used: 20 MB"]%string).

(** A START line, a plain line, an END line and a REPORT line of one
    stream. *)
Definition completeEvents : list Event.t :=
  [ Event.mk (str "1") sampleStream 997
      (str "START RequestId: cc81b998-c7de-46fb-a9ef-3423ccdcda98 Version: $LATEST"
       ++ [LF]);
    Event.mk (str "2") sampleStream 998 (str "hello" ++ [LF]);
    Event.mk (str "3") sampleStream 999
      (str "END RequestId: cc81b998-c7de-46fb-a9ef-3423ccdcda98" ++ [LF]);
    Event.mk (str "4") sampleStream 1000 (Event.message reportEvent) ].

(** Events of two log streams with names of the platform's shape, out
    of order. *)
Definition twoStreamEvents : list Event.t :=
  [ Event.mk (str "4") (str "2022/02/01/[$LATEST]b5d0c1f7a3e24c0c9a1f6d2e8b7c4a10")
      1003 (str "d");
    Event.mk (str "2") (str "2022/02/01/[$LATEST]3b66f77bc3f24fee8ccd70dd7315144e")
      1001 (str "b");
    Event.mk (str "3") (str "2022/02/01/[$LATEST]b5d0c1f7a3e24c0c9a1f6d2e8b7c4a10")
      1002 (str "c");
    Event.mk (str "1") (str "2022/02/01/[$LATEST]3b66f77bc3f24fee8ccd70dd7315144e")
      1000 (str "a");
    Event.mk (str "3") (str "2022/02/01/[$LATEST]b5d0c1f7a3e24c0c9a1f6d2e8b7c4a10")
      1002 (str "c") ].

(** ** Vocabulary of the further properties *)

(** Two records of one line: same identifier, time and stream. *)
Definition sameLine (a b : Log.t) : Prop :=
  Log.id a = Log.id b
  /\ Log.timestamp a = Log.timestamp b
  /\ Log.logStream a = Log.logStream b.

(** A field of a REPORT segment: no tab and no space inside. *)
Definition isToken (s : jsstring) : bool :=
  forallb (fun c => negb (N.eqb c TAB) && negb (N.eqb c SPACE)) s.

Definition hasNo (sep : char) (s : jsstring) : bool :=
  forallb (fun c => negb (N.eqb c sep)) s.

(** The layout of a REPORT line, as the comment of [parseLambdaREPORT]
    shows it. *)
Definition reportLine (id duration billed memSize memUsed : jsstring)
    : jsstring :=
  str "REPORT RequestId: " ++ id
  ++ [TAB] ++ str "Duration: " ++ duration ++ str " ms"
  ++ [TAB] ++ str "Billed Duration: " ++ billed ++ str " ms"
  ++ [TAB] ++ str "Memory Size: " ++ memSize ++ str " MB"
  ++ [TAB] ++ str "Max Memory Used: " ++ memUsed ++ str " MB".

(** A REPORT line of a traced function, as in [mockDefault]: after the
    memory segments come a tab, a newline and the X-Ray segments. *)
Definition reportLineWithTrace
    (id duration billed memSize memUsed trace segment : jsstring)
    : jsstring :=
  reportLine id duration billed memSize memUsed
  ++ [TAB] ++ [LF] ++ str "XRAY TraceId: " ++ trace
  ++ [TAB] ++ str "SegmentId: " ++ segment
  ++ [TAB] ++ str "Sampled: true".

(** Non-empty and made of hexadecimal digits and dashes. *)
Definition isHexWord (s : jsstring) : bool :=
  negb (Nat.eqb (List.length s) 0) && forallb isHexOrDash s.

(** *** The lines behind an invocation *)

Definition levelIs (v : Level) (log : Log.t) : bool :=
  match Log.level log with
  | Some u => Level_eqb u v
  | None => false
  end.

Definition lastLine (block : list Log.t) : option Log.t :=
  match rev block with
  | l :: _ => Some l
  | [] => None
  end.

(** The START line a block begins with and the REPORT line it ends with,
    if any. *)
Definition startOf (block : list Log.t) : option Log.t :=
  match block with
  | l :: _ => if levelIs START l then Some l else None
  | [] => None
  end.

Definition reportOf (block : list Log.t) : option Log.t :=
  match lastLine block with
  | Some l => if levelIs REPORT l then Some l else None
  | None => None
  end.

Definition fromReport (A : Type) (f : Log.t -> option A)
    (block : list Log.t) : option A :=
  match reportOf block with
  | Some l => f l
  | None => None
  end.

(** A request id [||] would keep. *)
Definition hasId (o : option jsstring) : bool :=
  match o with
  | Some (_ :: _) => true
  | _ => false
  end.

(** What an invocation, pushed or still open, owes to the lines appended
    to it. *)
Record carries (inv : Invocation.t) (block : list Log.t) : Prop := {
  carries_logs : Invocation.logs inv = map Log.message block;
  carries_stream :
    Forall (fun l => Invocation.logStream inv = Some (Log.logStream l)) block;
  carries_start : Forall (fun l => levelIs START l = false) (tl block);
  carries_startTime :
    Invocation.startTime inv = option_map Log.timestamp (startOf block);
  carries_firstLineTime :
    Invocation.firstLineTime inv
    = fold_left (fun a l => orNumber a (Log.timestamp l)) block None;
  carries_requestId :
    Invocation.requestId inv
    = fold_left (fun a l => orString a (Log.requestId l)) block None;
  carries_level :
    Invocation.logLevel inv = INFO
    \/ (Invocation.logLevel inv = WARN
        /\ existsb (levelIs WARN) block = true)
    \/ (Invocation.logLevel inv = ERROR
        /\ existsb (levelIs ERROR) block = true)
}.

(** The accumulator and the lines it holds. *)
Record opens (cur : Invocation.t) (block : list Log.t) : Prop := {
  opens_carries : carries cur block;
  opens_report : Forall (fun l => levelIs REPORT l = false) block;
  opens_endTime : Invocation.endTime cur = None;
  opens_duration : Invocation.duration cur = None;
  opens_memSize : Invocation.memSize cur = None;
  opens_memUsed : Invocation.memUsed cur = None;
  opens_xrayTraceId : Invocation.xrayTraceId cur = None;
  opens_empty : block = [] -> Invocation.logStream cur = None
}.

(** A pushed invocation and the lines it was built from. *)
Record describes (inv : Invocation.t) (block : list Log.t) : Prop := {
  describes_carries : carries inv block;
  describes_nonempty : block <> [];
  describes_report :
    Forall (fun l => levelIs REPORT l = false) (removelast block);
  describes_endTime :
    Invocation.endTime inv
    = fromReport (fun l => Some (Log.timestamp l)) block;
  describes_duration :
    Invocation.duration inv = fromReport (metaField Meta.duration) block;
  describes_memSize :
    Invocation.memSize inv = fromReport (metaField Meta.memSize) block;
  describes_memUsed :
    Invocation.memUsed inv = fromReport (metaField Meta.memUsed) block;
  describes_xrayTraceId :
    Invocation.xrayTraceId inv
    = fromReport (metaField Meta.xrayTraceId) block
}.

(** Why a block ended before the line [next]: it ended with a REPORT
    line, or [next] is a START line, or [next] is of another stream. *)
Definition boundary (before : list Log.t) (next : Log.t) : Prop :=
  match lastLine before with
  | Some l =>
      levelIs REPORT l = true
      \/ levelIs START next = true
      \/ Log.logStream l <> Log.logStream next
  | None => False
  end.

Definition endsReported (block : list Log.t) : Prop :=
  exists l, lastLine block = Some l /\ levelIs REPORT l = true.

Fixpoint chained (blocks : list (list Log.t)) : Prop :=
  match blocks with
  | b1 :: rest =>
      match rest with
      | (n :: _) :: _ => boundary b1 n /\ chained rest
      | [] :: _ => False
      | [] => True
      end
  | [] => True
  end.

(** The last of the blocks satisfies [P], or there is none. *)
Definition lastBlock (P : list Log.t -> Prop) (blocks : list (list Log.t))
    : Prop :=
  blocks = [] \/ exists bs b, blocks = bs ++ [b] /\ P b.

Definition closeBlock (block : list Log.t) : list (list Log.t) :=
  match block with
  | [] => []
  | _ :: _ => [block]
  end.

(** How a state of the loop relates to the lines read so far: the pushed
    invocations to the closed [blocks], the accumulator to the [open]
    one. *)
Definition groupGhost (st : GroupState) (blocks : list (list Log.t))
    (open : list Log.t) : Prop :=
  Forall2 describes (fst st) blocks
  /\ opens (snd st) open
  /\ chained blocks
  /\ match open with
     | n :: _ => lastBlock (fun b => boundary b n) blocks
     | [] => lastBlock endsReported blocks
     end.

(** ** The stable sort *)

Section SortFacts.
Variable A : Type.
Variable compareFn : A -> A -> Z.

Lemma insertSorted_perm (x : A) (l : list A) :
  Permutation (insertSorted compareFn x l) (x :: l).
Proof.
  induction l as [|y r IH]; simpl.
  - apply Permutation_refl.
  - destruct (compareFn x y <=? 0)%Z.
    + apply Permutation_refl.
    + eapply perm_trans; [apply perm_skip, IH | apply perm_swap].
Qed.

Lemma sort_perm (l : list A) : Permutation (sort compareFn l) l.
Proof.
  induction l as [|x l IH]; simpl.
  - constructor.
  - eapply perm_trans; [apply insertSorted_perm | now apply perm_skip].
Qed.

(** Elements a predicate selects keep their order when the comparator
    never puts one of them strictly after another. *)
Lemma insertSorted_filter (f : A -> bool) (x : A) (l : list A) :
  (forall y, In y l -> f x = true -> f y = true ->
             (compareFn x y <= 0)%Z) ->
  filter f (insertSorted compareFn x l) = filter f (x :: l).
Proof.
  induction l as [|y r IH]; intros H; [reflexivity|].
  cbn [insertSorted].
  destruct (compareFn x y <=? 0)%Z eqn:E; [reflexivity|].
  apply Z.leb_gt in E.
  assert (IH' : filter f (insertSorted compareFn x r) = filter f (x :: r)).
  { apply IH. intros z Hz. apply H. now right. }
  cbn [filter] in *. rewrite IH'.
  destruct (f x) eqn:Fx, (f y) eqn:Fy; try reflexivity.
  exfalso. specialize (H y (or_introl eq_refl) eq_refl Fy). lia.
Qed.

Lemma sort_filter (f : A -> bool) (l : list A) :
  (forall x y, In x l -> In y l -> f x = true -> f y = true ->
               (compareFn x y <= 0)%Z) ->
  filter f (sort compareFn l) = filter f l.
Proof.
  induction l as [|x l IH]; intros H; [reflexivity|].
  cbn [sort fold_right]. fold (sort compareFn l).
  rewrite insertSorted_filter.
  - cbn [filter]. rewrite IH; [reflexivity|].
    intros a b Ha Hb. apply H; now right.
  - intros y Hy. apply H; [now left|].
    right. eapply Permutation_in; [apply sort_perm | exact Hy].
Qed.

Variable good : A -> Prop.
Variable R : A -> A -> Prop.
Hypothesis le_R :
  forall x y, good x -> good y -> (compareFn x y <= 0)%Z -> R x y.
Hypothesis gt_R :
  forall x y, good x -> good y -> (compareFn x y > 0)%Z -> R y x.

Lemma insertSorted_HdRel (a x : A) (l : list A) :
  R a x -> HdRel R a l -> HdRel R a (insertSorted compareFn x l).
Proof.
  intros Hax Hl. destruct l as [|y r]; simpl.
  - now constructor.
  - destruct (compareFn x y <=? 0)%Z; constructor; auto.
    now inversion Hl.
Qed.

Lemma insertSorted_Sorted (x : A) (l : list A) :
  good x -> Forall good l -> Sorted R l ->
  Sorted R (insertSorted compareFn x l).
Proof.
  intros Gx Gl Hs. induction Hs as [|y r Hr IH Hhd]; simpl.
  - repeat constructor.
  - inversion Gl as [|? ? Gy Gr]; subst.
    destruct (compareFn x y <=? 0)%Z eqn:E.
    + apply Z.leb_le in E. constructor.
      * now constructor.
      * constructor. now apply le_R.
    + apply Z.leb_gt in E. constructor.
      * now apply IH.
      * apply insertSorted_HdRel; [|exact Hhd].
        apply gt_R; auto. lia.
Qed.

Lemma sort_Sorted (l : list A) :
  Forall good l -> Sorted R (sort compareFn l).
Proof.
  induction l as [|x l IH]; intros G; simpl.
  - constructor.
  - inversion G; subst. apply insertSorted_Sorted; auto.
    eapply Permutation_Forall; [|eassumption].
    apply Permutation_sym, sort_perm.
Qed.
End SortFacts.

(** ** The grouping loop *)

Lemma pushIfAny_messages (invocations : list Invocation.t)
    (cur : Invocation.t) :
  List.concat (map Invocation.logs (pushIfAny invocations cur))
  = List.concat (map Invocation.logs invocations) ++ Invocation.logs cur.
Proof.
  unfold pushIfAny. destruct (Invocation.logs cur) eqn:E.
  - now rewrite app_nil_r.
  - rewrite map_app, concat_app. simpl. now rewrite E, app_nil_r.
Qed.

Lemma pushIfAny_Forall (P : Invocation.t -> Prop)
    (invocations : list Invocation.t) (cur : Invocation.t) :
  Forall P invocations -> (Invocation.logs cur <> [] -> P cur) ->
  Forall P (pushIfAny invocations cur).
Proof.
  intros Hi Hc. unfold pushIfAny.
  destruct (Invocation.logs cur) eqn:E; [exact Hi|].
  apply Forall_app. split; [exact Hi|].
  constructor; [|constructor]. apply Hc. congruence.
Qed.

Lemma orNumber_some (a : option Z) (n : Z) : orNumber a n <> None.
Proof.
  unfold orNumber. destruct a as [t|]; [|discriminate].
  destruct (t =? 0)%Z; discriminate.
Qed.

Lemma app_one_not_nil (A : Type) (l : list A) (x : A) : l ++ [x] <> [].
Proof. destruct l; discriminate. Qed.

(** Each step appends the line's message to the state and to nothing
    else. *)
Lemma groupStep_messages (st : GroupState) (log : Log.t) :
  messagesOf (groupStep st log) = messagesOf st ++ [Log.message log].
Proof.
  destruct st as [invocations cur]. unfold groupStep, messagesOf.
  destruct (streamDiffers log cur);
    destruct (Log.level log) as [[]|]; cbn [fst snd Invocation.logs];
    rewrite ?map_app, ?concat_app, ?pushIfAny_messages;
    cbn [map List.concat Invocation.fresh Invocation.logs];
    rewrite ?app_nil_r, <- ?app_assoc; reflexivity.
Qed.

Lemma groupStep_invariant (st : GroupState) (log : Log.t) :
  groupInvariant st -> groupInvariant (groupStep st log).
Proof.
  destruct st as [invocations cur]. unfold groupInvariant.
  cbn [fst snd]. intros [Hi Hc].
  assert (Hp : Forall wellFormed (pushIfAny invocations cur)).
  { apply pushIfAny_Forall; [exact Hi|]. intros Hne. split; auto. }
  assert (Hf : Forall wellFormed (pushIfAny invocations Invocation.fresh))
    by (apply pushIfAny_Forall; [exact Hi | intros Hne; now elim Hne]).
  assert (Hpf : Forall wellFormed
                  (pushIfAny (pushIfAny invocations cur) Invocation.fresh))
    by (apply pushIfAny_Forall; [exact Hp | intros Hne; now elim Hne]).
  unfold groupStep.
  destruct (streamDiffers log cur);
    destruct (Log.level log) as [[]|]; cbn [fst snd];
    (split;
     [ first
         [ assumption
         | apply Forall_app; split; [assumption|];
           constructor; [|constructor]; split; cbn;
           [ first [apply app_one_not_nil | discriminate]
           | first [apply orNumber_some | discriminate] ] ]
     | cbn; intros Hne; first [discriminate | apply orNumber_some
                              | now elim Hne] ]).
Qed.

Lemma fold_groupStep_messages (logs : list Log.t) (st : GroupState) :
  messagesOf (fold_left groupStep logs st)
  = messagesOf st ++ map Log.message logs.
Proof.
  revert st. induction logs as [|log logs IH]; intros st; simpl.
  - now rewrite app_nil_r.
  - rewrite IH, groupStep_messages, <- app_assoc. reflexivity.
Qed.

Lemma fold_groupStep_invariant (logs : list Log.t) (st : GroupState) :
  groupInvariant st -> groupInvariant (fold_left groupStep logs st).
Proof.
  revert st. induction logs as [|log logs IH]; intros st H; simpl.
  - exact H.
  - apply IH, groupStep_invariant, H.
Qed.

Lemma groupInit_invariant : groupInvariant groupInit.
Proof. split; [constructor | intros H; now elim H]. Qed.

Lemma flushed_messages (logs : list Log.t) :
  List.concat (map Invocation.logs (flushed logs)) = map Log.message logs.
Proof.
  unfold flushed.
  pose proof (fold_groupStep_messages logs groupInit) as H.
  destruct (fold_left groupStep logs groupInit) as [invocations cur].
  rewrite pushIfAny_messages. exact H.
Qed.

Lemma flushed_wellFormed (logs : list Log.t) :
  Forall wellFormed (flushed logs).
Proof.
  unfold flushed.
  pose proof (fold_groupStep_invariant logs groupInit_invariant) as H.
  destruct (fold_left groupStep logs groupInit) as [invocations cur].
  destruct H as [Hi Hc]. apply pushIfAny_Forall; [exact Hi|].
  intros Hne. split; auto.
Qed.

Lemma groupLogs_perm (logs : list Log.t) :
  Permutation (groupLogs logs) (flushed logs).
Proof. apply sort_perm. Qed.

Lemma concat_logs_perm (l l' : list Invocation.t) :
  Permutation l l' ->
  Permutation (List.concat (map Invocation.logs l))
              (List.concat (map Invocation.logs l')).
Proof.
  induction 1; simpl.
  - constructor.
  - now apply Permutation_app_head.
  - rewrite !app_assoc. apply Permutation_app_tail, Permutation_app_comm.
  - eapply perm_trans; eassumption.
Qed.

(** ** Properties of the grouper and the sorter *)

(** C6. Completeness of the grouper: in push order the [logs] lists of
    the invocations, laid end to end, are exactly the messages of the
    input lines in input order, so every line sits at one position of one
    invocation; the returned sequence is a reordering of those
    invocations, and its messages number as many as the input lines. *)
Theorem groupLogs_complete (logs : list Log.t) :
  List.concat (map Invocation.logs (flushed logs)) = map Log.message logs
  /\ Permutation (groupLogs logs) (flushed logs)
  /\ Permutation (List.concat (map Invocation.logs (groupLogs logs)))
                 (map Log.message logs)
  /\ List.length (List.concat (map Invocation.logs (groupLogs logs)))
     = List.length logs.
Proof.
  pose proof (flushed_messages logs) as Hm.
  pose proof (groupLogs_perm logs) as Hp.
  pose proof (concat_logs_perm Hp) as Hc. rewrite Hm in Hc.
  repeat split; auto.
  rewrite (Permutation_length Hc). apply length_map.
Qed.

(** C7. The output is sorted by first-line time, descending: every entry
    and its successor both carry a first-line time and the earlier
    entry's is at least the later one's; and the sort is stable: for any
    time, the entries with that first-line time stand in push order. *)
Theorem groupLogs_sorted_descending_stable (logs : list Log.t) :
  Sorted timeGe (groupLogs logs)
  /\ (forall t : Z,
        filter (hasFirstLineTime t) (groupLogs logs)
        = filter (hasFirstLineTime t) (flushed logs)).
Proof.
  split.
  - unfold groupLogs.
    apply sort_Sorted with (good := wellFormed);
      [| | apply flushed_wellFormed].
    + intros x y [_ Hx] [_ Hy]. unfold compareFirstLineTime, timeGe.
      destruct (Invocation.firstLineTime x), (Invocation.firstLineTime y);
        try congruence.
      lia.
    + intros x y [_ Hx] [_ Hy]. unfold compareFirstLineTime, timeGe.
      destruct (Invocation.firstLineTime x), (Invocation.firstLineTime y);
        try congruence.
      lia.
  - intros t. unfold groupLogs. apply sort_filter.
    intros x y _ _. unfold hasFirstLineTime, compareFirstLineTime.
    destruct (Invocation.firstLineTime x), (Invocation.firstLineTime y);
      try discriminate.
    intros Hx Hy. apply Z.eqb_eq in Hx, Hy. lia.
Qed.

(** C10. No invocation of the output has an empty [logs] list. *)
Theorem groupLogs_no_empty_invocation (logs : list Log.t) :
  Forall (fun inv => Invocation.logs inv <> []) (groupLogs logs).
Proof.
  eapply Permutation_Forall.
  - apply Permutation_sym, groupLogs_perm.
  - eapply Forall_impl; [|apply flushed_wellFormed].
    intros inv [H _]. exact H.
Qed.

(** C1. The aggregate level does not only escalate: on an INFO line, an
    ERROR line and an INFO line of one stream, the accumulator reads INFO
    after the first line, ERROR after the second and INFO again after the
    third, and the one invocation returned has level INFO. *)
Theorem aggregate_level_after_info_error_info :
  let parsed :=
    map (fun event => parseLogMetadata event (str "nodejs14.x"))
      infoErrorInfo in
  map Log.level parsed = [Some INFO; Some ERROR; Some INFO]
  /\ map (fun n => Invocation.logLevel
                     (snd (fold_left groupStep (firstn n parsed) groupInit)))
       [1; 2; 3]%nat
     = [INFO; ERROR; INFO]
  /\ map Invocation.logLevel (useLogsQuery infoErrorInfo (str "nodejs14.x"))
     = [INFO].
Proof. vm_compute. repeat split. Qed.

(** ** Properties of the normalizer and the classifier at given inputs *)

(** C3. A Node.js line with an ISO timestamp, a request id and the level
    token ERROR, which no generic matcher takes, comes out of the
    classifier with level INFO, no request id and its whole text as
    message: the assignment to the undeclared [requestId] raises before
    anything is written, and the exception is swallowed. Were the
    identifier declared, the same body would give level ERROR, the request
    id and the text after the level token. *)
Theorem node_error_line_left_unparsed :
  let message := trim (Event.message nodeErrorEvent) in
  matchesGeneric message = false
  /\ isNodeLine (split TAB message) = true
  /\ nth 1 (split TAB message) [] = sampleRequestId
  /\ nth 2 (split TAB message) [] = str "ERROR"
  /\ parseLogMetadata nodeErrorEvent (str "nodejs14.x")
     = Log.mk (str "1") message 1000 (Some INFO) None sampleStream None
  /\ parseLogMetadataIn Sloppy nodeErrorEvent (str "nodejs14.x")
     = Log.mk (str "1") (str "error hello") 1000 (Some ERROR)
         (Some sampleRequestId) sampleStream None.
Proof. vm_compute. repeat split. Qed.

(** C4. A Python line the bracketed-tag matcher takes, with tag
    [WARNING], still goes through the traceback check: its rebuilt message
    carries the traceback header between white space, and the line ends
    with level ERROR and the failure flag instead of WARN. *)
Theorem python_tagged_line_reaches_traceback_check :
  let message := trim (Event.message pythonWarningEvent) in
  matchesGeneric message = false
  /\ isPythonLine (split TAB message) = true
  /\ nth 0 (split TAB message) [] = str "[WARNING]"
  /\ Log.level (parseLambdaPythonLog
                  (Log.mk (str "1") message 1000 None None sampleStream None)
                  (split TAB message))
     = Some WARN
  /\ parseLogMetadata pythonWarningEvent (str "python3.8")
     = Log.mk (str "1") (str "[WARNING] " ++ pythonTracebackText)
         1000 (Some ERROR) (Some sampleRequestId) sampleStream
         (Some (Meta.set_isFailed (Some true) Meta.empty)).
Proof. vm_compute. repeat split. Qed.

(** C5. Ordering by the concatenated key is not ordering by the pair
    (stream, identifier): with streams [web] and [web-2], the event of
    [web-2] is placed between the two events of [web], so an earlier
    event has a stream name that is neither smaller than nor equal to a
    later one's. *)
Theorem sortLogs_splits_a_stream :
  map (fun event => (Event.logStreamName event, Event.eventId event))
    (sortLogs (uniqBy prefixStreams Event.eventId))
  = [(str "web", str "1"); (str "web-2", str "2"); (str "web", str "3")]
  /\ JS.ltb (str "web-2") (str "web") = false
  /\ JS.eqb (str "web-2") (str "web") = false.
Proof. vm_compute. repeat split. Qed.

(** ** The classifier in general *)

Lemma parseLambdaSTART_unmatched (log : Log.t) :
  startsWith (str "START RequestId: ") (Log.message log) = false ->
  parseLambdaSTART log = log.
Proof. unfold parseLambdaSTART. now intros ->. Qed.

Lemma parseLambdaEND_unmatched (log : Log.t) :
  startsWith (str "END RequestId: ") (Log.message log) = false ->
  parseLambdaEND log = log.
Proof. unfold parseLambdaEND. now intros ->. Qed.

Lemma parseLambdaREPORT_unmatched (log : Log.t) :
  startsWith (str "REPORT RequestId: ") (Log.message log) = false ->
  parseLambdaREPORT log = log.
Proof. unfold parseLambdaREPORT. now intros ->. Qed.

Lemma parseLambdaUnknownApplicationError_unmatched (log : Log.t) :
  startsWith (str "Unknown application error occurred") (Log.message log)
  = false ->
  parseLambdaUnknownApplicationError log = log.
Proof. unfold parseLambdaUnknownApplicationError. now intros ->. Qed.

Lemma parseLambdaModuleInitializationError_unmatched (log : Log.t) :
  startsWith (str "module initialization error") (Log.message log) = false ->
  parseLambdaModuleInitializationError log = log.
Proof. unfold parseLambdaModuleInitializationError. now intros ->. Qed.

Lemma parseLambdaExited_unmatched (log : Log.t) (spcParts : list jsstring) :
  isExitedLine spcParts = false -> parseLambdaExited log spcParts = log.
Proof. unfold parseLambdaExited, isExitedLine. now intros ->. Qed.

Lemma parseLambdaTimeoutOrMessage_unmatched (log : Log.t)
    (spcParts : list jsstring) :
  isTimeoutOrMessageLine spcParts = false ->
  parseLambdaTimeoutOrMessage log spcParts = log.
Proof.
  unfold parseLambdaTimeoutOrMessage, isTimeoutOrMessageLine. now intros ->.
Qed.

Lemma parseLambdaNodeLog_unmatched (mode : CodeMode) (log : Log.t)
    (tabParts : list jsstring) :
  isNodeLine tabParts = false ->
  parseLambdaNodeLog mode log tabParts = Normal log.
Proof. unfold parseLambdaNodeLog, isNodeLine. now intros ->. Qed.

Lemma parseLambdaPythonLog_unmatched (log : Log.t)
    (tabParts : list jsstring) :
  isPythonLine tabParts = false -> parseLambdaPythonLog log tabParts = log.
Proof. unfold parseLambdaPythonLog, isPythonLine. now intros ->. Qed.

Lemma parseLambdaPythonTraceback_unmatched (log : Log.t) :
  hasTraceback (Log.message log) = false ->
  parseLambdaPythonTraceback log = log.
Proof. unfold parseLambdaPythonTraceback. now intros ->. Qed.

(** C2. A line no matcher takes is classified INFO and keeps the message
    the classifier works on, which is the raw message trimmed of leading
    and trailing white space; no request id and no metadata are set. *)
Theorem unmatched_line_is_INFO_with_trimmed_message
    (event : Event.t) (runtime : jsstring) :
  matchesAny runtime (trim (Event.message event)) = false ->
  parseLogMetadata event runtime
  = Log.mk (Event.eventId event) (trim (Event.message event))
      (Event.timestamp event) (Some INFO) None (Event.logStreamName event)
      None.
Proof.
  unfold matchesAny, matchesGeneric, matchesFamily. intros H.
  rewrite !orb_false_iff in H.
  destruct H as [[[[[[[Hs He] Hr] Hu] Hm] Hx] Ht] [Hn Hp]].
  unfold parseLogMetadata, parseLogMetadataIn.
  set (log := Log.mk _ _ _ _ _ _ _). cbv zeta.
  rewrite (parseLambdaSTART_unmatched log Hs).
  rewrite (parseLambdaEND_unmatched log He).
  rewrite (parseLambdaREPORT_unmatched log Hr).
  change (Log.hasLevel log) with false. cbv iota.
  rewrite (parseLambdaUnknownApplicationError_unmatched log Hu).
  rewrite (parseLambdaModuleInitializationError_unmatched log Hm).
  change (Log.message log) with (trim (Event.message event)).
  rewrite (parseLambdaExited_unmatched log _ Hx).
  rewrite (parseLambdaTimeoutOrMessage_unmatched log _ Ht).
  change (Log.message log) with (trim (Event.message event)).
  change (Log.hasLevel log) with false. cbv iota.
  destruct (startsWith (str "nodejs") runtime);
    destruct (startsWith (str "python") runtime);
    cbn [andb] in Hn, Hp;
    rewrite ?(parseLambdaNodeLog_unmatched _ log _ Hn);
    cbn [andThen caught]; change (Log.hasLevel log) with false; cbv iota.
  all: try reflexivity.
  all: apply orb_false_iff in Hp; destruct Hp as [Hp Htb];
    rewrite (parseLambdaPythonLog_unmatched log _ Hp);
    rewrite (parseLambdaPythonTraceback_unmatched log Htb); reflexivity.
Qed.

(** The line [hello], newline included. *)
Lemma unmatched_line_witness :
  matchesAny (str "nodejs14.x") (trim (Event.message plainEvent)) = false
  /\ parseLogMetadata plainEvent (str "nodejs14.x")
     = Log.mk (str "1") (str "hello") 1000 (Some INFO) None sampleStream None.
Proof.
  split; [reflexivity|].
  exact (unmatched_line_is_INFO_with_trimmed_message plainEvent
           (str "nodejs14.x") eq_refl).
Defined.

(** The raw message of [plainEvent] ends in a newline; the classified
    message does not. *)
Lemma unmatched_line_message_is_not_raw :
  ~ (matchesAny (str "nodejs14.x") (trim (Event.message plainEvent)) = false ->
     Log.level (parseLogMetadata plainEvent (str "nodejs14.x")) = Some INFO
     /\ Log.message (parseLogMetadata plainEvent (str "nodejs14.x"))
        = Event.message plainEvent).
Proof.
  intros H. destruct (H eq_refl) as [_ E]. vm_compute in E. discriminate E.
Qed.

Lemma split_head (sep c : char) (s h : jsstring) (t : list jsstring) :
  split sep s = (c :: h) :: t -> exists r, s = c :: r.
Proof.
  destruct s as [|d r]; simpl; [discriminate|].
  destruct (N.eqb d sep); [discriminate|].
  destruct (split sep r); intros E; injection E as -> _ _; now exists r.
Qed.

Lemma isIsoTimestamp_head (t : jsstring) :
  isIsoTimestamp t = true -> exists c r, t = c :: r /\ isDigit c = true.
Proof.
  destruct t as [|c r]; [discriminate|].
  unfold isIsoTimestamp. intros H. exists c, r. split; [reflexivity|].
  change (str "dddd-dd-ddTdd:dd:dd.dddZ")
    with (100%N :: str "ddd-dd-ddTdd:dd:dd.dddZ") in H.
  cbn [matchTemplate] in H. apply andb_true_iff in H. apply H.
Qed.

Lemma startsWith_digit (p r : jsstring) (x c : char) :
  isDigit c = true -> isDigit x = false ->
  startsWith (x :: p) (c :: r) = false.
Proof.
  intros Hc Hx. cbn [startsWith].
  destruct (N.eqb_spec x c) as [->|]; [congruence | reflexivity].
Qed.

Lemma eqb_digit (p r : jsstring) (x c : char) :
  isDigit c = true -> isDigit x = false -> JS.eqb (c :: r) (x :: p) = false.
Proof.
  intros Hc Hx. cbn [JS.eqb].
  destruct (N.eqb_spec c x) as [->|]; [congruence | reflexivity].
Qed.

(** C8. A line whose first space-separated token is an ISO-8601
    timestamp and whose second is a 36-character id, with at least one
    token after them, is classified with the remainder as its message and
    the id as its request id; its level is ERROR and its failure flag set
    exactly when the remainder starts with [Task timed out after], and
    its level is INFO with the flag cleared otherwise. This holds for
    every runtime. *)
Theorem timestamped_line_classification
    (event : Event.t) (runtime : jsstring)
    (stamp id word : jsstring) (words : list jsstring) :
  split SPACE (trim (Event.message event)) = stamp :: id :: word :: words ->
  isIsoTimestamp stamp = true ->
  isRequestId id = true ->
  let remainder := join [SPACE] (word :: words) in
  let timedOut := startsWith (str "Task timed out after") remainder in
  parseLogMetadata event runtime
  = Log.mk (Event.eventId event) remainder (Event.timestamp event)
      (Some (if timedOut then ERROR else INFO)) (Some id)
      (Event.logStreamName event)
      (Some (Meta.set_isFailed (Some timedOut) Meta.empty)).
Proof.
  intros Hsplit Hstamp Hid remainder timedOut.
  destruct (isIsoTimestamp_head _ Hstamp) as (c & r0 & -> & Hc).
  destruct (split_head _ _ Hsplit) as [r Hm].
  unfold parseLogMetadata, parseLogMetadataIn.
  set (log := Log.mk _ _ _ _ _ _ _). cbv zeta.
  assert (Hmsg : Log.message log = c :: r) by exact Hm.
  rewrite (parseLambdaSTART_unmatched log), (parseLambdaEND_unmatched log),
    (parseLambdaREPORT_unmatched log);
    try (rewrite Hmsg; apply startsWith_digit; [exact Hc | reflexivity]).
  change (Log.hasLevel log) with false. cbv iota.
  rewrite (parseLambdaUnknownApplicationError_unmatched log),
    (parseLambdaModuleInitializationError_unmatched log);
    try (rewrite Hmsg; apply startsWith_digit; [exact Hc | reflexivity]).
  change (Log.message log) with (trim (Event.message event)).
  rewrite Hsplit.
  rewrite parseLambdaExited_unmatched.
  2:{ unfold isExitedLine. cbn [nth List.length Nat.leb andb].
      change (str "RequestId:") with (82%N :: str "equestId:").
      apply andb_false_iff. left.
      apply eqb_digit; [exact Hc | reflexivity]. }
  unfold parseLambdaTimeoutOrMessage.
  cbn [nth List.length Nat.leb andb slice skipn].
  rewrite Hstamp, Hid. cbn [andb].
  subst remainder timedOut log.
  generalize (join [SPACE] (word :: words)). intros rem.
  destruct (startsWith (str "Task timed out after") rem);
    destruct (startsWith (str "nodejs") runtime);
    destruct (startsWith (str "python") runtime); reflexivity.
Qed.

(** The timeout line of the specification's Example D. *)
Lemma timestamped_line_witness :
  parseLogMetadata timeoutEvent (str "nodejs14.x")
  = Log.mk (str "1") (str "Task timed out after 6.00 seconds") 1000
      (Some ERROR) (Some (str "abcdefab-abcd-abcd-abcd-abcdefabcdef"))
      sampleStream (Some (Meta.set_isFailed (Some true) Meta.empty)).
Proof.
  exact (@timestamped_line_classification timeoutEvent (str "nodejs14.x")
           (str "2022-01-01T00:00:00.000Z")
           (str "abcdefab-abcd-abcd-abcd-abcdefabcdef")
           (str "Task")
           [str "timed"; str "out"; str "after"; str "6.00"; str "seconds"]
           eq_refl eq_refl eq_refl).
Defined.

Lemma startsWith_head (x : char) (p s : jsstring) :
  startsWith (x :: p) s = true -> exists r, s = x :: r.
Proof.
  destruct s as [|c r]; [discriminate|]. cbn [startsWith]. intros H.
  apply andb_true_iff in H. destruct H as [H _].
  apply N.eqb_eq in H. subst. now exists r.
Qed.

(** What the classifier makes of a REPORT line. *)
Lemma parseLogMetadata_REPORT (event : Event.t) (runtime : jsstring) :
  startsWith (str "REPORT RequestId: ") (trim (Event.message event)) = true ->
  parseLogMetadata event runtime
  = Log.mk (Event.eventId event) (trim (Event.message event))
      (Event.timestamp event) (Some REPORT)
      (Some (substr 18 36 (trim (Event.message event))))
      (Event.logStreamName event)
      (Some (reportMetadata (trim (Event.message event)))).
Proof.
  intros H.
  assert (Hm : exists r, trim (Event.message event) = 82%N :: r)
    by (apply startsWith_head with (p := str "EPORT RequestId: "); exact H).
  destruct Hm as [r Hm].
  unfold parseLogMetadata, parseLogMetadataIn.
  set (log := Log.mk _ _ _ _ _ _ _). cbv zeta.
  assert (Hmsg : Log.message log = 82%N :: r) by exact Hm.
  rewrite (parseLambdaSTART_unmatched log), (parseLambdaEND_unmatched log);
    try (rewrite Hmsg; reflexivity).
  unfold parseLambdaREPORT.
  change (Log.message log) with (trim (Event.message event)).
  rewrite H. subst log. unfold reportMetadata.
  destruct (startsWith (str "nodejs") runtime);
    destruct (startsWith (str "python") runtime); reflexivity.
Qed.

(** C9. A REPORT line closes the invocation it is appended to, whatever
    the state. If the line is of another stream than the accumulator,
    the accumulator is first pushed (when it holds a line) and replaced
    by a fresh one; then the step appends the line's message to the
    accumulator, sets its end time to the line's timestamp and its
    duration, memory and trace fields to those read from the line's tab
    segments, keeps its start time and level, backfills its request id
    and first-line time, pushes it after all the invocations pushed
    before, and leaves a fresh accumulator. No message the state held is
    lost. A batch of one REPORT line gives one invocation, with end time
    set, start time unset and the request id of the line. *)
Theorem report_line_closes_invocation
    (st : GroupState) (event : Event.t) (runtime : jsstring) :
  startsWith (str "REPORT RequestId: ") (trim (Event.message event)) = true ->
  let message := trim (Event.message event) in
  let md := reportMetadata message in
  let log := parseLogMetadata event runtime in
  let differs := streamDiffers log (snd st) in
  let pushed := if differs then pushIfAny (fst st) (snd st) else fst st in
  let cur := if differs then Invocation.fresh else snd st in
  Log.level log = Some REPORT
  /\ groupStep st log
     = (pushed ++
          [Invocation.mk (Invocation.logs cur ++ [message])
             (orString (Invocation.requestId cur)
                (Some (substr 18 36 message)))
             (Some (Event.logStreamName event))
             (orNumber (Invocation.firstLineTime cur)
                (Event.timestamp event))
             (Invocation.startTime cur)
             (Some (Event.timestamp event))
             (Meta.duration md) (Meta.memSize md) (Meta.memUsed md)
             (Meta.xrayTraceId md)
             (Invocation.logLevel cur)],
        Invocation.fresh)
  /\ (exists more, pushed = fst st ++ more)
  /\ messagesOf (groupStep st log) = messagesOf st ++ [message]
  /\ useLogsQuery [event] runtime
     = [Invocation.mk [message] (Some (substr 18 36 message))
          (Some (Event.logStreamName event)) (Some (Event.timestamp event))
          None (Some (Event.timestamp event))
          (Meta.duration md) (Meta.memSize md) (Meta.memUsed md)
          (Meta.xrayTraceId md) INFO].
Proof.
  intros H message md log differs pushed cur.
  pose proof (parseLogMetadata_REPORT event runtime H) as Hlog.
  fold log message in Hlog. fold md in Hlog.
  split; [now rewrite Hlog|]. split; [|split; [|split]].
  - subst pushed cur differs. destruct st as [invocations acc].
    unfold groupStep. cbn [fst snd].
    destruct (streamDiffers log acc); rewrite Hlog; reflexivity.
  - subst pushed differs. destruct (streamDiffers log (snd st)).
    + unfold pushIfAny. destruct (Invocation.logs (snd st)).
      * exists []. now rewrite app_nil_r.
      * now exists [snd st].
    + exists []. now rewrite app_nil_r.
  - rewrite groupStep_messages. now rewrite Hlog.
  - unfold useLogsQuery, uniqBy, sortLogs.
    cbn [uniqByAux existsb sort fold_right insertSorted map].
    fold log. rewrite Hlog. reflexivity.
Qed.

(** The REPORT line of the specification's Example B, as a batch of its
    own, and as the line read after a complete invocation has been
    pushed and a START line, a plain line and an END line of the same
    stream have been accumulated: the invocation pushed before is kept,
    and the accumulated lines come before the REPORT line in the new
    one. *)
Lemma report_line_witness :
  useLogsQuery [reportEvent] (str "nodejs14.x")
  = [Invocation.mk [Event.message reportEvent] (Some sampleRequestId)
       (Some sampleStream) (Some 1000%Z) None (Some 1000%Z)
       (Some (str "1")) (Some (str "128")) (Some (str "20")) None INFO]
  /\ (let complete :=
        Invocation.mk
          (map (fun event => trim (Event.message event)) completeEvents)
          (Some sampleRequestId) (Some sampleStream) (Some 997%Z)
          (Some 997%Z) (Some 1000%Z)
          (Some (str "1")) (Some (str "128")) (Some (str "20")) None INFO in
      groupStep
        (fold_left groupStep
           (map (fun event => parseLogMetadata event (str "nodejs14.x"))
              (completeEvents ++ firstn 3 completeEvents))
           groupInit)
        (parseLogMetadata reportEvent (str "nodejs14.x"))
      = ([complete; complete], Invocation.fresh)).
Proof.
  pose proof (report_line_closes_invocation
                (fold_left groupStep
                   (map (fun event =>
                           parseLogMetadata event (str "nodejs14.x"))
                      (completeEvents ++ firstn 3 completeEvents))
                   groupInit)
                reportEvent (str "nodejs14.x") eq_refl) as H.
  split.
  - exact (proj2 (proj2 (proj2 (proj2 H)))).
  - exact (proj1 (proj2 H)).
Defined.

(** ** The normalizer in general *)

Lemma eqb_eq (a b : jsstring) : JS.eqb a b = true <-> a = b.
Proof.
  revert b. induction a as [|x a IH]; intros [|y b]; simpl;
    try (split; [discriminate | discriminate]); [tauto|].
  rewrite andb_true_iff, N.eqb_eq, IH. split.
  - intros [-> ->]. reflexivity.
  - intros E. injection E as -> ->. auto.
Qed.

Lemma ltb_le_trans (a b c : jsstring) :
  JS.ltb b a = false -> JS.ltb c b = false -> JS.ltb c a = false.
Proof.
  revert b c. induction a as [|x a IH]; intros b c Hba Hcb.
  - now destruct c.
  - destruct b as [|y b]; [discriminate|].
    destruct c as [|z c]; [discriminate|].
    cbn [JS.ltb] in *.
    destruct (N.ltb_spec y x); [discriminate|].
    destruct (N.ltb_spec z y); [discriminate|].
    destruct (N.ltb_spec z x); [lia|].
    destruct (N.ltb_spec x y).
    + destruct (N.ltb_spec x z); [reflexivity | lia].
    + destruct (N.ltb_spec y z).
      * destruct (N.ltb_spec x z); [reflexivity | lia].
      * destruct (N.ltb_spec x z); [reflexivity|]. eauto.
Qed.

Lemma ltb_asym (a b : jsstring) :
  JS.ltb a b = true -> JS.ltb b a = false.
Proof.
  revert b. induction a as [|x a IH]; intros [|y b]; simpl; try discriminate;
    try reflexivity.
  destruct (N.ltb_spec x y), (N.ltb_spec y x); try lia; auto; discriminate.
Qed.

Lemma ltb_app (s a b : jsstring) : JS.ltb (s ++ a) (s ++ b) = JS.ltb a b.
Proof.
  induction s as [|x s IH]; [reflexivity|]. cbn [app JS.ltb].
  now rewrite N.ltb_irrefl.
Qed.

Lemma uniqByAux_spec (A : Type) (key : A -> jsstring) (l : list A) :
  forall seen,
    NoDup (map key (uniqByAux key seen l))
    /\ (forall x, In x (uniqByAux key seen l) ->
                  In x l /\ ~ In (key x) seen)
    /\ (forall x, In x l ->
                  In (key x) seen
                  \/ In (key x) (map key (uniqByAux key seen l))).
Proof.
  induction l as [|x l IH]; intros seen; cbn [uniqByAux].
  - simpl. split; [constructor | split; intros x []].
  - destruct (existsb (JS.eqb (key x)) seen) eqn:E.
    + apply existsb_exists in E. destruct E as (k & Hk & Ek).
      apply eqb_eq in Ek. subst k.
      destruct (IH seen) as (Hn & Hin & Hall). repeat split; auto.
      * right. now apply Hin.
      * now apply Hin.
      * intros y [<-|Hy]; auto.
    + assert (Hx : ~ In (key x) seen).
      { intros Hin. apply Bool.not_true_iff_false in E. apply E.
        apply existsb_exists. exists (key x). split; [exact Hin|].
        now apply eqb_eq. }
      destruct (IH (key x :: seen)) as (Hn & Hin & Hall).
      cbn [map]. repeat split.
      * constructor; [|exact Hn]. intros Hk. apply in_map_iff in Hk.
        destruct Hk as (y & Ey & Hy). apply Hin in Hy.
        destruct Hy as [_ Hy]. apply Hy. left. now symmetry.
      * destruct H as [<-|H]; [now left | right; now apply Hin].
      * destruct H as [<-|H]; [exact Hx|].
        intros Hs. apply Hin in H. destruct H as [_ H]. apply H. now right.
      * intros y [<-|Hy]; [right; now left|].
        destruct (Hall y Hy) as [[Ek|Hs]|Hr]; auto.
        -- right. left. exact Ek.
        -- right. now right.
Qed.

(** X20. What the normalizer does guarantee: one event per identifier, taken
    from the input, every identifier of the input kept, and the events in
    ascending order of the concatenated key; among events of one stream
    that is the order of their identifiers. *)
Lemma normalizer_dedup_and_key_order (events : list Event.t) :
  let normalized := sortLogs (uniqBy events Event.eventId) in
  NoDup (map Event.eventId normalized)
  /\ (forall event, In event normalized -> In event events)
  /\ (forall event, In event events ->
        In (Event.eventId event) (map Event.eventId normalized))
  /\ StronglySorted keyLe normalized
  /\ StronglySorted
       (fun a b => Event.logStreamName a = Event.logStreamName b ->
                   JS.ltb (Event.eventId b) (Event.eventId a) = false)
       normalized.
Proof.
  intros normalized.
  assert (Hp : Permutation normalized (uniqBy events Event.eventId))
    by apply sort_perm.
  destruct (uniqByAux_spec Event.eventId events []) as (Hn & Hin & Hall).
  fold (uniqBy events Event.eventId) in Hn, Hin, Hall.
  assert (Hs : StronglySorted keyLe normalized).
  { apply Sorted_StronglySorted.
    - intros a b c Hab Hbc. unfold keyLe in *.
      eapply ltb_le_trans; eassumption.
    - apply sort_Sorted with (good := fun _ => True).
      + intros x y _ _. unfold compareSortKey, keyLe.
        destruct (JS.ltb (sortKey x) (sortKey y)) eqn:E1.
        * intros _. now apply ltb_asym.
        * destruct (JS.ltb (sortKey y) (sortKey x)); [lia | reflexivity].
      + intros x y _ _. unfold compareSortKey, keyLe.
        destruct (JS.ltb (sortKey x) (sortKey y)); [lia | reflexivity].
      + apply Forall_forall. auto. }
  repeat split.
  - eapply Permutation_NoDup; [|exact Hn].
    apply Permutation_map, Permutation_sym, Hp.
  - intros event H. apply Hin. eapply Permutation_in; eassumption.
  - intros event H. destruct (Hall event H) as [[]|Hk].
    eapply Permutation_in; [|exact Hk].
    apply Permutation_map, Permutation_sym, Hp.
  - exact Hs.
  - clear - Hs. induction Hs as [|a l Hl IH Ha]; constructor; [exact IH|].
    eapply Forall_impl; [|exact Ha]. intros b Hab Hst.
    unfold keyLe, sortKey in Hab. rewrite Hst in Hab.
    now rewrite !ltb_app in Hab.
Qed.

(** ** Further properties of the classifier *)

Lemma sameLine_refl (a : Log.t) : sameLine a a.
Proof. repeat split. Qed.

Lemma sameLine_trans (a b c : Log.t) :
  sameLine a b -> sameLine b c -> sameLine a c.
Proof.
  intros (H1 & H2 & H3) (K1 & K2 & K3).
  repeat split; congruence.
Qed.

Lemma parseLambdaSTART_sameLine (log : Log.t) :
  sameLine log (parseLambdaSTART log).
Proof.
  unfold parseLambdaSTART.
  destruct (startsWith _ _); repeat split.
Qed.

Lemma parseLambdaEND_sameLine (log : Log.t) :
  sameLine log (parseLambdaEND log).
Proof.
  unfold parseLambdaEND.
  destruct (startsWith _ _); repeat split.
Qed.

Lemma parseLambdaREPORT_sameLine (log : Log.t) :
  sameLine log (parseLambdaREPORT log).
Proof.
  unfold parseLambdaREPORT.
  destruct (startsWith _ _); repeat split.
Qed.

Lemma parseLambdaUnknownApplicationError_sameLine (log : Log.t) :
  sameLine log (parseLambdaUnknownApplicationError log).
Proof.
  unfold parseLambdaUnknownApplicationError.
  destruct (startsWith _ _); repeat split.
Qed.

Lemma parseLambdaModuleInitializationError_sameLine (log : Log.t) :
  sameLine log (parseLambdaModuleInitializationError log).
Proof.
  unfold parseLambdaModuleInitializationError.
  destruct (startsWith _ _); repeat split.
Qed.

Lemma parseLambdaExited_sameLine (log : Log.t) (spcParts : list jsstring) :
  sameLine log (parseLambdaExited log spcParts).
Proof.
  unfold parseLambdaExited.
  destruct (_ && _); repeat split.
Qed.

Lemma parseLambdaTimeoutOrMessage_sameLine (log : Log.t)
    (spcParts : list jsstring) :
  sameLine log (parseLambdaTimeoutOrMessage log spcParts).
Proof.
  unfold parseLambdaTimeoutOrMessage.
  destruct (_ && _); repeat split.
Qed.

Lemma parseLambdaNodeLog_sameLine (mode : CodeMode) (log : Log.t)
    (tabParts : list jsstring) :
  sameLine log (caught (parseLambdaNodeLog mode log tabParts)).
Proof.
  unfold parseLambdaNodeLog.
  destruct (_ && _); [|apply sameLine_refl].
  destruct mode; [apply sameLine_refl|].
  repeat (destruct (JS.eqb _ _)); repeat split.
Qed.

Lemma parseLambdaPythonLog_sameLine (log : Log.t)
    (tabParts : list jsstring) :
  sameLine log (parseLambdaPythonLog log tabParts).
Proof.
  unfold parseLambdaPythonLog.
  destruct (_ && _); [|apply sameLine_refl].
  repeat (destruct (JS.eqb _ _)); repeat split.
Qed.

Lemma parseLambdaPythonTraceback_sameLine (log : Log.t) :
  sameLine log (parseLambdaPythonTraceback log).
Proof.
  unfold parseLambdaPythonTraceback.
  destruct (hasTraceback _); repeat split.
Qed.

(** The line as the generic matchers leave it. *)
Lemma generic_stage_sameLine (log : Log.t) :
  let log1 := parseLambdaREPORT (parseLambdaEND (parseLambdaSTART log)) in
  let spcParts := split SPACE (Log.message log1) in
  sameLine log
    (if Log.hasLevel log1 then log1
     else
       parseLambdaTimeoutOrMessage
         (parseLambdaExited
            (parseLambdaModuleInitializationError
               (parseLambdaUnknownApplicationError log1))
            spcParts)
         spcParts).
Proof.
  intros log1 spcParts.
  assert (H1 : sameLine log log1).
  { eapply sameLine_trans; [apply parseLambdaSTART_sameLine|].
    eapply sameLine_trans; [apply parseLambdaEND_sameLine|].
    apply parseLambdaREPORT_sameLine. }
  destruct (Log.hasLevel log1); [exact H1|].
  eapply sameLine_trans; [exact H1|].
  eapply sameLine_trans;
    [apply parseLambdaUnknownApplicationError_sameLine|].
  eapply sameLine_trans;
    [apply parseLambdaModuleInitializationError_sameLine|].
  eapply sameLine_trans; [apply parseLambdaExited_sameLine|].
  apply parseLambdaTimeoutOrMessage_sameLine.
Qed.

(** X1. Whatever the message and the runtime, the classified line has the
    event's identifier, timestamp and log stream, and a level. *)
Theorem classifier_keeps_line_and_sets_level
    (mode : CodeMode) (event : Event.t) (runtime : jsstring) :
  let log := parseLogMetadataIn mode event runtime in
  Log.id log = Event.eventId event
  /\ Log.timestamp log = Event.timestamp event
  /\ Log.logStream log = Event.logStreamName event
  /\ Log.level log <> None.
Proof.
  unfold parseLogMetadataIn.
  set (log0 := Log.mk _ _ _ _ _ _ _). cbv zeta.
  pose proof (generic_stage_sameLine log0) as Hg. cbv zeta in Hg.
  set (log2 := if Log.hasLevel _ then _ else _) in *.
  set (final := caught _).
  assert (Hf : sameLine log0 final).
  { subst final.
    destruct (startsWith (str "nodejs") runtime).
    - destruct (Log.hasLevel log2) eqn:E.
      + cbn [andThen caught].
        destruct (startsWith (str "python") runtime); [|exact Hg].
        rewrite E. exact Hg.
      + pose proof (parseLambdaNodeLog_sameLine mode log2
                      (split TAB (Log.message log2))) as Hn.
        destruct (parseLambdaNodeLog mode log2 _) as [log3|log3];
          cbn [andThen caught] in *.
        * eapply sameLine_trans; [exact Hg|].
          eapply sameLine_trans; [exact Hn|].
          destruct (startsWith (str "python") runtime);
            [|apply sameLine_refl].
          destruct (Log.hasLevel log3); [apply sameLine_refl|].
          eapply sameLine_trans; [apply parseLambdaPythonLog_sameLine|].
          apply parseLambdaPythonTraceback_sameLine.
        * eapply sameLine_trans; eassumption.
    - cbn [andThen caught].
      destruct (startsWith (str "python") runtime); [|exact Hg].
      destruct (Log.hasLevel log2); [exact Hg|].
      eapply sameLine_trans; [exact Hg|].
      eapply sameLine_trans; [apply parseLambdaPythonLog_sameLine|].
      apply parseLambdaPythonTraceback_sameLine. }
  destruct Hf as (H1 & H2 & H3).
  destruct (Log.hasLevel final) eqn:E.
  - repeat split; try (symmetry; assumption).
    unfold Log.hasLevel in E. destruct (Log.level final); congruence.
  - repeat split; try (symmetry; assumption). discriminate.
Qed.

Lemma startsWith_app (p s : jsstring) :
  startsWith p s = true -> exists r, s = p ++ r.
Proof.
  revert s. induction p as [|x p IH]; intros s H.
  - now exists s.
  - destruct s as [|c s]; [discriminate|]. cbn [startsWith] in H.
    apply andb_true_iff in H. destruct H as [Hx Hp].
    apply N.eqb_eq in Hx. subst c.
    destruct (IH s Hp) as [r ->]. now exists r.
Qed.

Lemma parseLambdaEND_hasLevel (log : Log.t) :
  Log.hasLevel log = true -> Log.hasLevel (parseLambdaEND log) = true.
Proof. unfold parseLambdaEND. now destruct (startsWith _ _). Qed.

Lemma parseLambdaREPORT_hasLevel (log : Log.t) :
  Log.hasLevel log = true -> Log.hasLevel (parseLambdaREPORT log) = true.
Proof. unfold parseLambdaREPORT. now destruct (startsWith _ _). Qed.

(** The three marker matchers leave the level unset only when none of
    their prefixes is there. *)
Lemma marker_stage_unset (log : Log.t) :
  Log.hasLevel (parseLambdaREPORT (parseLambdaEND (parseLambdaSTART log)))
  = false ->
  startsWith (str "START RequestId: ") (Log.message log) = false
  /\ startsWith (str "END RequestId: ") (Log.message log) = false
  /\ startsWith (str "REPORT RequestId: ") (Log.message log) = false.
Proof.
  intros H.
  destruct (startsWith (str "START RequestId: ") (Log.message log)) eqn:E1.
  { rewrite parseLambdaREPORT_hasLevel in H; [discriminate|].
    apply parseLambdaEND_hasLevel. unfold parseLambdaSTART.
    now rewrite E1. }
  rewrite (parseLambdaSTART_unmatched log E1) in H.
  destruct (startsWith (str "END RequestId: ") (Log.message log)) eqn:E2.
  { rewrite parseLambdaREPORT_hasLevel in H; [discriminate|].
    unfold parseLambdaEND. now rewrite E2. }
  rewrite (parseLambdaEND_unmatched log E2) in H.
  destruct (startsWith (str "REPORT RequestId: ") (Log.message log)) eqn:E3.
  { unfold parseLambdaREPORT in H. rewrite E3 in H. discriminate. }
  auto.
Qed.

(** A line a generic matcher takes leaves the generic matchers with a
    level. *)
Lemma generic_stage_hasLevel (log : Log.t) :
  matchesGeneric (Log.message log) = true ->
  let log1 := parseLambdaREPORT (parseLambdaEND (parseLambdaSTART log)) in
  let spcParts := split SPACE (Log.message log1) in
  Log.hasLevel
    (if Log.hasLevel log1 then log1
     else
       parseLambdaTimeoutOrMessage
         (parseLambdaExited
            (parseLambdaModuleInitializationError
               (parseLambdaUnknownApplicationError log1))
            spcParts)
         spcParts)
  = true.
Proof.
  intros H log1 spcParts.
  destruct (Log.hasLevel log1) eqn:E1; [exact E1|].
  destruct (marker_stage_unset log E1) as (Hs & He & Hr).
  assert (Hm : log1 = log).
  { subst log1. now rewrite (parseLambdaSTART_unmatched log Hs),
      (parseLambdaEND_unmatched log He), (parseLambdaREPORT_unmatched log Hr). }
  subst spcParts. rewrite Hm. clear Hm E1 log1.
  unfold matchesGeneric in H. rewrite Hs, He, Hr in H. cbn [orb] in H.
  unfold parseLambdaTimeoutOrMessage, parseLambdaExited,
    parseLambdaModuleInitializationError, parseLambdaUnknownApplicationError.
  unfold isExitedLine, isTimeoutOrMessageLine in H.
  destruct (startsWith (str "Unknown application error occurred")
              (Log.message log));
    destruct (startsWith (str "module initialization error")
                (Log.message log));
    cbn [Log.message Log.set_level Log.set_invocationMetadata orb] in *;
    repeat match goal with
           | |- context [if ?c then _ else _] => destruct c eqn:?
           end;
    try reflexivity; try discriminate.
Qed.

(** X2. A line one of the generic matchers takes is classified the same
    under every runtime: the runtime's own matchers are not tried on
    it. *)
Theorem generic_match_ignores_runtime
    (mode : CodeMode) (event : Event.t) (runtime runtime' : jsstring) :
  matchesGeneric (trim (Event.message event)) = true ->
  parseLogMetadataIn mode event runtime
  = parseLogMetadataIn mode event runtime'.
Proof.
  intros H. unfold parseLogMetadataIn.
  set (log0 := Log.mk _ _ _ _ _ _ _). cbv zeta.
  pose proof (generic_stage_hasLevel log0 H) as Hl. cbv zeta in Hl.
  set (log2 := if Log.hasLevel _ then _ else _) in *.
  destruct (startsWith (str "nodejs") runtime),
    (startsWith (str "nodejs") runtime'),
    (startsWith (str "python") runtime),
    (startsWith (str "python") runtime');
    rewrite ?Hl; cbn [andThen caught]; rewrite ?Hl; reflexivity.
Qed.

(** The timeout line of the specification's Example D, under two
    runtimes. *)
Lemma generic_match_ignores_runtime_witness :
  parseLogMetadataIn Strict timeoutEvent (str "nodejs14.x")
  = parseLogMetadataIn Strict timeoutEvent (str "python3.8").
Proof.
  exact (@generic_match_ignores_runtime Strict timeoutEvent
           (str "nodejs14.x") (str "python3.8") eq_refl).
Defined.

(** X3. Under a Node.js runtime the classifier does what it does under a
    runtime it has no matchers for: the Node.js matcher either leaves the
    line alone or raises, and the exception is swallowed. *)
Theorem nodejs_runtime_adds_nothing (event : Event.t) (runtime : jsstring) :
  startsWith (str "nodejs") runtime = true ->
  parseLogMetadata event runtime = parseLogMetadata event [].
Proof.
  intros H.
  assert (Hp : startsWith (str "python") runtime = false).
  { destruct (startsWith_app _ _ H) as [r ->]. reflexivity. }
  unfold parseLogMetadata, parseLogMetadataIn, moduleMode.
  set (log0 := Log.mk _ _ _ _ _ _ _). cbv zeta.
  set (log2 := if Log.hasLevel (parseLambdaREPORT _) then _ else _).
  rewrite H, Hp.
  change (startsWith (str "nodejs") []) with false.
  change (startsWith (str "python") []) with false.
  cbv iota. unfold parseLambdaNodeLog.
  destruct (Log.hasLevel log2); [reflexivity|].
  destruct (_ && _); reflexivity.
Qed.

Lemma nodejs_runtime_adds_nothing_witness :
  parseLogMetadata nodeErrorEvent (str "nodejs14.x")
  = parseLogMetadata nodeErrorEvent [].
Proof.
  exact (@nodejs_runtime_adds_nothing nodeErrorEvent (str "nodejs14.x")
           eq_refl).
Defined.

(** ** Facts about the string primitives *)

Lemma split_not_nil (sep : char) (s : jsstring) : split sep s <> [].
Proof.
  induction s as [|c r IH]; simpl; [discriminate|].
  destruct (N.eqb c sep); [discriminate|].
  destruct (split sep r); [contradiction | discriminate].
Qed.

Lemma split_join (sep : char) (s : jsstring) :
  join [sep] (split sep s) = s.
Proof.
  induction s as [|c r IH]; [reflexivity|]. cbn [split].
  pose proof (split_not_nil sep r) as Hn.
  destruct (N.eqb_spec c sep) as [->|Hne];
    destruct (split sep r) as [|h t] eqn:E; try contradiction.
  - rewrite <- IH. reflexivity.
  - rewrite <- IH. destruct t; reflexivity.
Qed.

Lemma split_hasNo (sep : char) (a : jsstring) :
  hasNo sep a = true -> split sep a = [a].
Proof.
  induction a as [|c a IH]; [reflexivity|]. cbn [hasNo forallb split].
  intros H. apply andb_true_iff in H. destruct H as [Hc Ha].
  apply negb_true_iff in Hc. rewrite Hc. fold (hasNo sep a) in Ha.
  now rewrite (IH Ha).
Qed.

Lemma split_app_sep (sep : char) (a r : jsstring) :
  hasNo sep a = true -> split sep (a ++ sep :: r) = a :: split sep r.
Proof.
  induction a as [|c a IH]; cbn [hasNo forallb split app].
  - intros _. now rewrite N.eqb_refl.
  - intros H. apply andb_true_iff in H. destruct H as [Hc Ha].
    apply negb_true_iff in Hc. rewrite Hc. fold (hasNo sep a) in Ha.
    now rewrite (IH Ha).
Qed.

Lemma hasNo_app (sep : char) (a b : jsstring) :
  hasNo sep (a ++ b) = hasNo sep a && hasNo sep b.
Proof. apply forallb_app. Qed.

Lemma trimStart_nonWhite (c : char) (s : jsstring) :
  isWhiteSpace c = false -> trimStart (c :: s) = c :: s.
Proof. intros H. cbn [trimStart]. now rewrite H. Qed.

(** A string that neither starts nor ends with white space is its own
    trim. *)
Lemma trim_id (c e : char) (m : jsstring) :
  isWhiteSpace c = false -> isWhiteSpace e = false ->
  trim (c :: m ++ [e]) = c :: m ++ [e].
Proof.
  intros Hc He. unfold trim, trimEnd.
  rewrite trimStart_nonWhite by exact Hc.
  change (c :: m ++ [e]) with ((c :: m) ++ [e]).
  rewrite rev_unit, trimStart_nonWhite by exact He.
  change (e :: rev (c :: m)) with ([e] ++ rev (c :: m)).
  now rewrite rev_app_distr, rev_involutive.
Qed.

Lemma isHexOrDash_nonWhite (c : char) :
  isHexOrDash c = true -> isWhiteSpace c = false.
Proof.
  unfold isHexOrDash, isDigit. intros H.
  destruct (isWhiteSpace c) eqn:E; [|reflexivity].
  unfold isWhiteSpace in E. apply existsb_exists in E.
  destruct E as (w & Hw & Ew). apply N.eqb_eq in Ew. subst w.
  cbn [In] in Hw.
  repeat (destruct Hw as [<-|Hw]; [discriminate H|]). contradiction.
Qed.

Lemma isRequestId_length (id : jsstring) :
  isRequestId id = true -> List.length id = 36%nat.
Proof.
  unfold isRequestId. intros H. apply andb_true_iff in H.
  destruct H as [H _]. now apply Nat.eqb_eq.
Qed.

Lemma isRequestId_hasNo (sep : char) (id : jsstring) :
  isHexOrDash sep = false -> isRequestId id = true -> hasNo sep id = true.
Proof.
  unfold isRequestId. intros Hs H. apply andb_true_iff in H.
  destruct H as [_ H]. unfold hasNo. rewrite forallb_forall in *.
  intros c Hc. apply negb_true_iff. destruct (N.eqb_spec c sep); subst; auto.
  rewrite (H _ Hc) in Hs. discriminate.
Qed.

Lemma isToken_hasNo (s : jsstring) :
  isToken s = true -> hasNo TAB s = true /\ hasNo SPACE s = true.
Proof.
  unfold isToken, hasNo. rewrite !forallb_forall. intros H.
  split; intros c Hc; specialize (H c Hc);
    apply andb_true_iff in H; tauto.
Qed.

(** ** The marker and error matchers within the classifier *)

(** X4. A line that starts with [START RequestId: ] is classified START
    under every runtime; its request id is the 36 characters (or fewer,
    if the line is shorter) after the prefix, its message is the trimmed
    line and it carries no metadata. *)
Theorem start_line_classification
    (mode : CodeMode) (event : Event.t) (runtime : jsstring) :
  startsWith (str "START RequestId: ") (trim (Event.message event)) = true ->
  parseLogMetadataIn mode event runtime
  = Log.mk (Event.eventId event) (trim (Event.message event))
      (Event.timestamp event) (Some START)
      (Some (substr 17 36 (trim (Event.message event))))
      (Event.logStreamName event) None.
Proof.
  intros H.
  assert (Hm : exists r, trim (Event.message event) = 83%N :: r)
    by (apply startsWith_head with (p := str "TART RequestId: "); exact H).
  destruct Hm as [r Hm].
  unfold parseLogMetadataIn.
  set (log := Log.mk _ _ _ _ _ _ _). cbv zeta.
  unfold parseLambdaSTART.
  change (Log.message log) with (trim (Event.message event)).
  rewrite H.
  rewrite parseLambdaEND_unmatched, parseLambdaREPORT_unmatched;
    try (cbn [Log.message Log.set_requestId Log.set_level log];
         rewrite Hm; reflexivity).
  subst log.
  destruct (startsWith (str "nodejs") runtime);
    destruct (startsWith (str "python") runtime); reflexivity.
Qed.

Lemma start_line_witness :
  parseLogMetadataIn Strict
    (Event.mk (str "1") sampleStream 1000
       (str "START RequestId: cc81b998-c7de-46fb-a9ef-3423ccdcda98 Version: $LATEST"
        ++ [LF]))
    (str "nodejs14.x")
  = Log.mk (str "1")
      (str "START RequestId: cc81b998-c7de-46fb-a9ef-3423ccdcda98 Version: $LATEST")
      1000 (Some START) (Some sampleRequestId) sampleStream None.
Proof.
  exact (@start_line_classification Strict
           (Event.mk (str "1") sampleStream 1000
              (str "START RequestId: cc81b998-c7de-46fb-a9ef-3423ccdcda98 Version: $LATEST"
               ++ [LF]))
           (str "nodejs14.x") eq_refl).
Defined.

(** X5. A line that starts with [END RequestId: ] is classified END under
    every runtime, with the request id read after the prefix, the
    trimmed line as message and no metadata. *)
Theorem end_line_classification
    (mode : CodeMode) (event : Event.t) (runtime : jsstring) :
  startsWith (str "END RequestId: ") (trim (Event.message event)) = true ->
  parseLogMetadataIn mode event runtime
  = Log.mk (Event.eventId event) (trim (Event.message event))
      (Event.timestamp event) (Some END)
      (Some (substr 15 36 (trim (Event.message event))))
      (Event.logStreamName event) None.
Proof.
  intros H.
  assert (Hm : exists r, trim (Event.message event) = 69%N :: r)
    by (apply startsWith_head with (p := str "ND RequestId: "); exact H).
  destruct Hm as [r Hm].
  unfold parseLogMetadataIn.
  set (log := Log.mk _ _ _ _ _ _ _). cbv zeta.
  assert (Hmsg : Log.message log = 69%N :: r) by exact Hm.
  rewrite (parseLambdaSTART_unmatched log) by (rewrite Hmsg; reflexivity).
  unfold parseLambdaEND.
  change (Log.message log) with (trim (Event.message event)).
  rewrite H.
  rewrite parseLambdaREPORT_unmatched
    by (cbn [Log.message Log.set_requestId Log.set_level log];
        rewrite Hm; reflexivity).
  subst log.
  destruct (startsWith (str "nodejs") runtime);
    destruct (startsWith (str "python") runtime); reflexivity.
Qed.

Lemma end_line_witness :
  parseLogMetadataIn Strict
    (Event.mk (str "1") sampleStream 1000
       (str "END RequestId: cc81b998-c7de-46fb-a9ef-3423ccdcda98" ++ [LF]))
    (str "python3.8")
  = Log.mk (str "1")
      (str "END RequestId: cc81b998-c7de-46fb-a9ef-3423ccdcda98")
      1000 (Some END) (Some sampleRequestId) sampleStream None.
Proof.
  exact (@end_line_classification Strict
           (Event.mk (str "1") sampleStream 1000
              (str "END RequestId: cc81b998-c7de-46fb-a9ef-3423ccdcda98"
               ++ [LF]))
           (str "python3.8") eq_refl).
Defined.

(** X6. A line of the form [RequestId: <36-character id> <text>] is
    classified ERROR with the failure flag under every runtime; the id
    becomes the request id and the text the message. *)
Theorem exited_line_classification
    (mode : CodeMode) (event : Event.t) (runtime : jsstring)
    (id word : jsstring) (words : list jsstring) :
  split SPACE (trim (Event.message event))
  = str "RequestId:" :: id :: word :: words ->
  isRequestId id = true ->
  parseLogMetadataIn mode event runtime
  = Log.mk (Event.eventId event) (join [SPACE] (word :: words))
      (Event.timestamp event) (Some ERROR) (Some id)
      (Event.logStreamName event)
      (Some (Meta.set_isFailed (Some true) Meta.empty)).
Proof.
  intros Hsplit Hid.
  assert (Hm : exists r, trim (Event.message event) = 82%N :: 101%N :: r).
  { rewrite <- (split_join SPACE (trim (Event.message event))), Hsplit.
    eexists. reflexivity. }
  destruct Hm as [r Hm].
  unfold parseLogMetadataIn.
  set (log := Log.mk _ _ _ _ _ _ _). cbv zeta.
  assert (Hmsg : Log.message log = 82%N :: 101%N :: r) by exact Hm.
  rewrite (parseLambdaSTART_unmatched log), (parseLambdaEND_unmatched log),
    (parseLambdaREPORT_unmatched log);
    try (rewrite Hmsg; reflexivity).
  change (Log.hasLevel log) with false. cbv iota.
  rewrite (parseLambdaUnknownApplicationError_unmatched log),
    (parseLambdaModuleInitializationError_unmatched log);
    try (rewrite Hmsg; reflexivity).
  change (Log.message log) with (trim (Event.message event)).
  rewrite Hsplit.
  rewrite parseLambdaTimeoutOrMessage_unmatched.
  2:{ unfold isTimeoutOrMessageLine. cbn [nth List.length Nat.leb andb].
      reflexivity. }
  unfold parseLambdaExited.
  cbn [nth List.length Nat.leb andb slice skipn].
  rewrite Hid.
  change (JS.eqb (str "RequestId:") (str "RequestId:")) with true.
  cbn [andb]. subst log.
  destruct (startsWith (str "nodejs") runtime);
    destruct (startsWith (str "python") runtime); reflexivity.
Qed.

Lemma exited_line_witness :
  parseLogMetadataIn Strict
    (Event.mk (str "1") sampleStream 1000
       (str "RequestId: cc81b998-c7de-46fb-a9ef-3423ccdcda98 Process exited before completing request"
        ++ [LF]))
    (str "python3.8")
  = Log.mk (str "1") (str "Process exited before completing request") 1000
      (Some ERROR) (Some sampleRequestId) sampleStream
      (Some (Meta.set_isFailed (Some true) Meta.empty)).
Proof.
  exact (@exited_line_classification Strict
           (Event.mk (str "1") sampleStream 1000
              (str "RequestId: cc81b998-c7de-46fb-a9ef-3423ccdcda98 Process exited before completing request"
               ++ [LF]))
           (str "python3.8") sampleRequestId (str "Process")
           [str "exited"; str "before"; str "completing"; str "request"]
           eq_refl eq_refl).
Defined.

Lemma first_word_not_exited (word : jsstring) (rest : list jsstring) :
  JS.eqb word (str "RequestId:") = false ->
  isExitedLine (word :: rest) = false.
Proof.
  intros H. unfold isExitedLine. cbn [nth]. rewrite H.
  now rewrite andb_false_r.
Qed.

Lemma first_word_not_timeout (word : jsstring) (rest : list jsstring) :
  isIsoTimestamp word = false ->
  isTimeoutOrMessageLine (word :: rest) = false.
Proof.
  intros H. unfold isTimeoutOrMessageLine. cbn [nth]. rewrite H.
  now rewrite andb_false_r.
Qed.

(** X7. A line that starts with [Unknown application error occurred] or
    with [module initialization error] is classified ERROR under every
    runtime; its message is the trimmed line, it gets an empty metadata
    record (the failure flag is not set) and no request id. *)
Theorem application_error_line_classification
    (mode : CodeMode) (event : Event.t) (runtime : jsstring) :
  startsWith (str "Unknown application error occurred")
    (trim (Event.message event))
  || startsWith (str "module initialization error")
       (trim (Event.message event)) = true ->
  parseLogMetadataIn mode event runtime
  = Log.mk (Event.eventId event) (trim (Event.message event))
      (Event.timestamp event) (Some ERROR) None
      (Event.logStreamName event) (Some Meta.empty).
Proof.
  intros H. apply orb_true_iff in H.
  unfold parseLogMetadataIn.
  set (log := Log.mk _ _ _ _ _ _ _). cbv zeta.
  destruct H as [H|H]; destruct (startsWith_app _ _ H) as [r Hm].
  - assert (Hmsg : Log.message log = 85%N :: str "nknown" ++
                                      SPACE :: str "application error occurred"
                                      ++ r) by exact Hm.
    rewrite (parseLambdaSTART_unmatched log), (parseLambdaEND_unmatched log),
      (parseLambdaREPORT_unmatched log);
      try (rewrite Hmsg; reflexivity).
    change (Log.hasLevel log) with false. cbv iota.
    unfold parseLambdaUnknownApplicationError.
    change (Log.message log) with (trim (Event.message event)).
    rewrite H.
    rewrite parseLambdaModuleInitializationError_unmatched
      by (cbn [Log.message Log.set_invocationMetadata Log.set_level log];
          rewrite Hm; reflexivity).
    replace (split SPACE (trim (Event.message event)))
      with (str "Unknown"
            :: split SPACE (str "application error occurred" ++ r)).
    2:{ rewrite Hm. symmetry.
        apply (split_app_sep SPACE (str "Unknown")
                 (str "application error occurred" ++ r)).
        reflexivity. }
    rewrite parseLambdaExited_unmatched
      by (apply first_word_not_exited; reflexivity).
    rewrite parseLambdaTimeoutOrMessage_unmatched
      by (apply first_word_not_timeout; reflexivity).
    subst log.
    destruct (startsWith (str "nodejs") runtime);
      destruct (startsWith (str "python") runtime); reflexivity.
  - assert (Hmsg : Log.message log = 109%N :: str "odule" ++
                                      SPACE :: str "initialization error"
                                      ++ r) by exact Hm.
    rewrite (parseLambdaSTART_unmatched log), (parseLambdaEND_unmatched log),
      (parseLambdaREPORT_unmatched log);
      try (rewrite Hmsg; reflexivity).
    change (Log.hasLevel log) with false. cbv iota.
    rewrite (parseLambdaUnknownApplicationError_unmatched log)
      by (rewrite Hmsg; reflexivity).
    unfold parseLambdaModuleInitializationError.
    change (Log.message log) with (trim (Event.message event)).
    rewrite H.
    replace (split SPACE (trim (Event.message event)))
      with (str "module" :: split SPACE (str "initialization error" ++ r)).
    2:{ rewrite Hm. symmetry.
        apply (split_app_sep SPACE (str "module")
                 (str "initialization error" ++ r)).
        reflexivity. }
    rewrite parseLambdaExited_unmatched
      by (apply first_word_not_exited; reflexivity).
    rewrite parseLambdaTimeoutOrMessage_unmatched
      by (apply first_word_not_timeout; reflexivity).
    subst log.
    destruct (startsWith (str "nodejs") runtime);
      destruct (startsWith (str "python") runtime); reflexivity.
Qed.

Lemma application_error_line_witness :
  parseLogMetadataIn Strict
    (Event.mk (str "1") sampleStream 1000
       (str "module initialization error: NameError" ++ [LF]))
    (str "python3.8")
  = Log.mk (str "1") (str "module initialization error: NameError") 1000
      (Some ERROR) None sampleStream (Some Meta.empty).
Proof.
  exact (@application_error_line_classification Strict
           (Event.mk (str "1") sampleStream 1000
              (str "module initialization error: NameError" ++ [LF]))
           (str "python3.8") eq_refl).
Defined.

(** ** The Python matchers within the classifier *)

Lemma python_runtime_not_nodejs (runtime : jsstring) :
  startsWith (str "python") runtime = true ->
  startsWith (str "nodejs") runtime = false.
Proof.
  intros H. destruct (startsWith_app _ _ H) as [r ->]. reflexivity.
Qed.

(** A line no generic matcher takes reaches the runtime's matchers as it
    came. *)
Lemma generic_stage_unmatched (log : Log.t) :
  Log.hasLevel log = false ->
  matchesGeneric (Log.message log) = false ->
  let log1 := parseLambdaREPORT (parseLambdaEND (parseLambdaSTART log)) in
  let spcParts := split SPACE (Log.message log1) in
  (if Log.hasLevel log1 then log1
   else
     parseLambdaTimeoutOrMessage
       (parseLambdaExited
          (parseLambdaModuleInitializationError
             (parseLambdaUnknownApplicationError log1))
          spcParts)
       spcParts)
  = log.
Proof.
  intros Hl H. unfold matchesGeneric in H.
  rewrite !orb_false_iff in H.
  destruct H as [[[[[[Hs He] Hr] Hu] Hm] Hx] Ht].
  cbv zeta.
  rewrite (parseLambdaSTART_unmatched log Hs),
    (parseLambdaEND_unmatched log He), (parseLambdaREPORT_unmatched log Hr).
  rewrite Hl.
  rewrite (parseLambdaUnknownApplicationError_unmatched log Hu),
    (parseLambdaModuleInitializationError_unmatched log Hm),
    (parseLambdaExited_unmatched log _ Hx).
  apply (parseLambdaTimeoutOrMessage_unmatched log _ Ht).
Qed.

(** X8. Under a Python runtime, a line no generic matcher takes and whose
    tab-separated tokens are a tag, a timestamp, a 36-character id and at
    least one more always gets the id as request id and the tag, a space
    and the remaining tokens as message. When that message holds no
    traceback header, its level is INFO for the tag [[INFO]], WARN for
    [[WARNING]], ERROR for [[ERROR]] and [[CRITICAL]], and INFO for any
    other tag, and it carries no metadata; when it holds one, the level
    is ERROR whatever the tag and the failure flag is set. *)
Theorem python_tagged_line_classification
    (mode : CodeMode) (event : Event.t) (runtime : jsstring)
    (tag stamp id text : jsstring) (more : list jsstring) :
  startsWith (str "python") runtime = true ->
  matchesGeneric (trim (Event.message event)) = false ->
  split TAB (trim (Event.message event)) = tag :: stamp :: id :: text :: more ->
  isIsoTimestampOptFraction stamp = true ->
  isRequestId id = true ->
  let message := tag ++ [SPACE] ++ join [TAB] (text :: more) in
  parseLogMetadataIn mode event runtime
  = Log.mk (Event.eventId event) message (Event.timestamp event)
      (Some (if hasTraceback message then ERROR
             else if JS.eqb tag (str "[INFO]") then INFO
             else if JS.eqb tag (str "[WARNING]") then WARN
             else if JS.eqb tag (str "[ERROR]")
                     || JS.eqb tag (str "[CRITICAL]") then ERROR
             else INFO))
      (Some id) (Event.logStreamName event)
      (if hasTraceback message
       then Some (Meta.set_isFailed (Some true) Meta.empty)
       else None).
Proof.
  intros Hrt Hg Hsplit Hstamp Hid message.
  unfold parseLogMetadataIn.
  set (log := Log.mk _ _ _ _ _ _ _). cbv zeta.
  pose proof (generic_stage_unmatched log eq_refl Hg) as Hstage.
  cbv zeta in Hstage. rewrite Hstage.
  rewrite (python_runtime_not_nodejs _ Hrt), Hrt.
  cbn [andThen caught].
  change (Log.hasLevel log) with false. cbv iota.
  change (Log.message log) with (trim (Event.message event)).
  rewrite Hsplit. unfold parseLambdaPythonLog.
  cbn [nth List.length Nat.leb andb slice skipn].
  rewrite Hstamp, Hid. cbn [andb].
  fold message. unfold parseLambdaPythonTraceback.
  cbn [Log.message Log.set_message]. subst log.
  destruct (hasTraceback message);
    destruct (JS.eqb tag (str "[INFO]")); try reflexivity;
    destruct (JS.eqb tag (str "[WARNING]")); try reflexivity;
    destruct (JS.eqb tag (str "[ERROR]") || JS.eqb tag (str "[CRITICAL]"));
    reflexivity.
Qed.

(** The warning line of the comment of [parseLambdaPythonLog], and a
    warning line that carries a logged traceback. *)
Lemma python_tagged_line_witness :
  parseLogMetadataIn Strict
    (Event.mk (str "1") sampleStream 1000
       (tabbed ["[WARNING]"; "2019-11-12T20:00:30.183Z";
                "cc81b998-c7de-46fb-a9ef-3423ccdcda98";
                "this is a warn"]%string ++ [LF]))
    (str "python3.8")
  = Log.mk (str "1") (str "[WARNING] this is a warn") 1000 (Some WARN)
      (Some sampleRequestId) sampleStream None
  /\ parseLogMetadataIn Strict pythonWarningEvent (str "python3.8")
     = Log.mk (str "1") (str "[WARNING] " ++ pythonTracebackText) 1000
         (Some ERROR) (Some sampleRequestId) sampleStream
         (Some (Meta.set_isFailed (Some true) Meta.empty)).
Proof.
  split.
  - exact (@python_tagged_line_classification Strict
             (Event.mk (str "1") sampleStream 1000
                (tabbed ["[WARNING]"; "2019-11-12T20:00:30.183Z";
                         "cc81b998-c7de-46fb-a9ef-3423ccdcda98";
                         "this is a warn"]%string ++ [LF]))
             (str "python3.8") (str "[WARNING]")
             (str "2019-11-12T20:00:30.183Z") sampleRequestId
             (str "this is a warn") []
             eq_refl eq_refl eq_refl eq_refl eq_refl).
  - exact (@python_tagged_line_classification Strict pythonWarningEvent
             (str "python3.8") (str "[WARNING]")
             (str "2019-11-12T20:00:30.183Z") sampleRequestId
             pythonTracebackText []
             eq_refl eq_refl eq_refl eq_refl eq_refl).
Defined.

(** X9. Under a Python runtime, a line that neither a generic matcher
    nor the tag matcher takes and that holds the traceback header between
    white space is classified ERROR with the failure flag; its message is
    the trimmed line and it has no request id. *)
Theorem python_traceback_line_classification
    (mode : CodeMode) (event : Event.t) (runtime : jsstring) :
  startsWith (str "python") runtime = true ->
  matchesGeneric (trim (Event.message event)) = false ->
  isPythonLine (split TAB (trim (Event.message event))) = false ->
  hasTraceback (trim (Event.message event)) = true ->
  parseLogMetadataIn mode event runtime
  = Log.mk (Event.eventId event) (trim (Event.message event))
      (Event.timestamp event) (Some ERROR) None (Event.logStreamName event)
      (Some (Meta.set_isFailed (Some true) Meta.empty)).
Proof.
  intros Hrt Hg Hpy Htb.
  unfold parseLogMetadataIn.
  set (log := Log.mk _ _ _ _ _ _ _). cbv zeta.
  pose proof (generic_stage_unmatched log eq_refl Hg) as Hstage.
  cbv zeta in Hstage. rewrite Hstage.
  rewrite (python_runtime_not_nodejs _ Hrt), Hrt.
  cbn [andThen caught].
  change (Log.hasLevel log) with false. cbv iota.
  change (Log.message log) with (trim (Event.message event)).
  rewrite (parseLambdaPythonLog_unmatched log _ Hpy).
  unfold parseLambdaPythonTraceback.
  change (Log.message log) with (trim (Event.message event)).
  rewrite Htb. reflexivity.
Qed.

(** An uncaught exception's report, as the Python runtime prints it. *)
Lemma python_traceback_line_witness :
  parseLogMetadataIn Strict
    (Event.mk (str "1") sampleStream 1000
       (str "[ERROR] ZeroDivisionError: division by zero" ++ [LF]
        ++ pythonTracebackText ++ [LF]))
    (str "python3.8")
  = Log.mk (str "1")
      (str "[ERROR] ZeroDivisionError: division by zero" ++ [LF]
       ++ pythonTracebackText)
      1000 (Some ERROR) None sampleStream
      (Some (Meta.set_isFailed (Some true) Meta.empty)).
Proof.
  exact (@python_traceback_line_classification Strict
           (Event.mk (str "1") sampleStream 1000
              (str "[ERROR] ZeroDivisionError: division by zero" ++ [LF]
               ++ pythonTracebackText ++ [LF]))
           (str "python3.8") eq_refl eq_refl eq_refl eq_refl).
Defined.

(** ** Reading a REPORT line *)

Lemma startsWith_prefix (p r : jsstring) : startsWith p (p ++ r) = true.
Proof.
  induction p as [|x p IH]; [reflexivity|]. cbn [app startsWith].
  now rewrite N.eqb_refl.
Qed.

Lemma split_of_join (sep : char) (parts : list jsstring) :
  parts <> [] -> forallb (hasNo sep) parts = true ->
  split sep (join [sep] parts) = parts.
Proof.
  induction parts as [|a parts IH]; [congruence|]. intros _ H.
  cbn [forallb] in H. apply andb_true_iff in H. destruct H as [Ha Hp].
  destruct parts as [|b parts].
  - cbn [join]. now apply split_hasNo.
  - change (join [sep] (a :: b :: parts))
      with (a ++ sep :: join [sep] (b :: parts)).
    rewrite (split_app_sep _ _ _ Ha), IH; [reflexivity | discriminate | exact Hp].
Qed.

(** A string between a literal that starts with a non-blank and a literal
    that ends with one. *)
Lemma trim_wrapped (c e : char) (p x q : jsstring) :
  isWhiteSpace c = false -> isWhiteSpace e = false ->
  trim ((c :: p) ++ x ++ (q ++ [e])) = (c :: p) ++ x ++ (q ++ [e]).
Proof.
  intros Hc He.
  replace ((c :: p) ++ x ++ q ++ [e]) with (c :: (p ++ x ++ q) ++ [e])
    by (cbn [app]; now rewrite <- !app_assoc).
  now apply trim_id.
Qed.

Lemma reportPart_head (md : Meta.t) (id : jsstring) :
  isRequestId id = true ->
  reportPart md (str "REPORT RequestId: " ++ id) = md.
Proof.
  intros Hid.
  assert (Hlast : exists id' e, id = id' ++ [e] /\ isWhiteSpace e = false).
  { destruct (exists_last (l := id)) as (id' & e & E).
    - intros ->. discriminate Hid.
    - exists id', e. split; [exact E|]. apply isHexOrDash_nonWhite.
      unfold isRequestId in Hid. apply andb_true_iff in Hid.
      destruct Hid as [_ Hid]. rewrite forallb_forall in Hid.
      apply Hid. rewrite E. apply in_or_app. right. now left. }
  destruct Hlast as (id' & e & -> & He).
  unfold reportPart.
  change (str "REPORT RequestId: " ++ id' ++ [e])
    with ((82%N :: str "EPORT RequestId: ") ++ id' ++ ([] ++ [e])).
  rewrite trim_wrapped by (reflexivity || exact He).
  reflexivity.
Qed.

Lemma reportPart_duration (md : Meta.t) (d : jsstring) :
  isToken d = true ->
  reportPart md (str "Duration: " ++ d ++ str " ms")
  = Meta.set_duration (Some d) md.
Proof.
  intros Hd. destruct (isToken_hasNo _ Hd) as [_ Hs].
  unfold reportPart.
  change (str "Duration: " ++ d ++ str " ms")
    with ((68%N :: str "uration: ") ++ d ++ (str " m" ++ [115%N])).
  rewrite trim_wrapped by reflexivity.
  change ((68%N :: str "uration: ") ++ d ++ (str " m" ++ [115%N]))
    with (str "Duration" ++ (58%N :: SPACE :: d ++ SPACE :: str "ms")).
  rewrite startsWith_prefix.
  change (str "Duration" ++ (58%N :: SPACE :: d ++ SPACE :: str "ms"))
    with (str "Duration:" ++ SPACE :: d ++ SPACE :: str "ms").
  rewrite (split_app_sep SPACE (str "Duration:")) by reflexivity.
  rewrite (split_app_sep SPACE d) by exact Hs.
  reflexivity.
Qed.

Lemma reportPart_billed (md : Meta.t) (b : jsstring) :
  reportPart md (str "Billed Duration: " ++ b ++ str " ms") = md.
Proof.
  unfold reportPart.
  change (str "Billed Duration: " ++ b ++ str " ms")
    with ((66%N :: str "illed Duration: ") ++ b ++ (str " m" ++ [115%N])).
  rewrite trim_wrapped by reflexivity.
  reflexivity.
Qed.

Lemma reportPart_memSize (md : Meta.t) (s : jsstring) :
  isToken s = true ->
  reportPart md (str "Memory Size: " ++ s ++ str " MB")
  = Meta.set_memSize (Some s) md.
Proof.
  intros Hd. destruct (isToken_hasNo _ Hd) as [_ Hs].
  unfold reportPart.
  change (str "Memory Size: " ++ s ++ str " MB")
    with ((77%N :: str "emory Size: ") ++ s ++ (str " M" ++ [66%N])).
  rewrite trim_wrapped by reflexivity.
  change ((77%N :: str "emory Size: ") ++ s ++ (str " M" ++ [66%N]))
    with (str "Memory Size" ++ (58%N :: SPACE :: s ++ SPACE :: str "MB")).
  change (startsWith (str "Duration")
            (str "Memory Size" ++ 58%N :: SPACE :: s ++ SPACE :: str "MB"))
    with false.
  rewrite startsWith_prefix. cbv iota.
  change (str "Memory Size" ++ (58%N :: SPACE :: s ++ SPACE :: str "MB"))
    with (str "Memory" ++ SPACE :: str "Size:" ++ SPACE :: s
          ++ SPACE :: str "MB").
  rewrite (split_app_sep SPACE (str "Memory")) by reflexivity.
  rewrite (split_app_sep SPACE (str "Size:")) by reflexivity.
  rewrite (split_app_sep SPACE s) by exact Hs.
  reflexivity.
Qed.

Lemma reportPart_memUsed (md : Meta.t) (u : jsstring) :
  isToken u = true ->
  reportPart md (str "Max Memory Used: " ++ u ++ str " MB")
  = Meta.set_memUsed (Some u) md.
Proof.
  intros Hd. destruct (isToken_hasNo _ Hd) as [_ Hs].
  unfold reportPart.
  change (str "Max Memory Used: " ++ u ++ str " MB")
    with ((77%N :: str "ax Memory Used: ") ++ u ++ (str " M" ++ [66%N])).
  rewrite trim_wrapped by reflexivity.
  change ((77%N :: str "ax Memory Used: ") ++ u ++ (str " M" ++ [66%N]))
    with (str "Max Memory Used" ++ (58%N :: SPACE :: u ++ SPACE :: str "MB")).
  change (startsWith (str "Duration")
            (str "Max Memory Used" ++ 58%N :: SPACE :: u ++ SPACE :: str "MB"))
    with false.
  change (startsWith (str "Memory Size")
            (str "Max Memory Used" ++ 58%N :: SPACE :: u ++ SPACE :: str "MB"))
    with false.
  rewrite startsWith_prefix. cbv iota.
  change (str "Max Memory Used" ++ (58%N :: SPACE :: u ++ SPACE :: str "MB"))
    with (str "Max" ++ SPACE :: str "Memory" ++ SPACE :: str "Used:"
          ++ SPACE :: u ++ SPACE :: str "MB").
  rewrite (split_app_sep SPACE (str "Max")) by reflexivity.
  rewrite (split_app_sep SPACE (str "Memory")) by reflexivity.
  rewrite (split_app_sep SPACE (str "Used:")) by reflexivity.
  rewrite (split_app_sep SPACE u) by exact Hs.
  reflexivity.
Qed.

Lemma reportLine_segments (id d b s u : jsstring) :
  reportLine id d b s u
  = join [TAB]
      [str "REPORT RequestId: " ++ id;
       str "Duration: " ++ d ++ str " ms";
       str "Billed Duration: " ++ b ++ str " ms";
       str "Memory Size: " ++ s ++ str " MB";
       str "Max Memory Used: " ++ u ++ str " MB"].
Proof.
  unfold reportLine. cbn [join]. now rewrite <- !app_assoc.
Qed.

(** X10. A REPORT line in the layout the platform writes (request id,
    then tab-separated [Duration: d ms], [Billed Duration: b ms],
    [Memory Size: s MB], [Max Memory Used: u MB]) is read back: the
    classified line has level REPORT, the request id, and metadata with
    duration [d], memory size [s] and memory used [u]; the billed
    duration is not kept, and no trace id and no failure flag are set. *)
Theorem report_line_fields_read_back
    (event : Event.t) (runtime : jsstring) (id d b s u : jsstring) :
  trim (Event.message event) = reportLine id d b s u ->
  isRequestId id = true ->
  isToken d = true -> isToken b = true ->
  isToken s = true -> isToken u = true ->
  parseLogMetadata event runtime
  = Log.mk (Event.eventId event) (reportLine id d b s u)
      (Event.timestamp event) (Some REPORT) (Some id)
      (Event.logStreamName event)
      (Some (Meta.mk (Some d) (Some s) (Some u) None None)).
Proof.
  intros Hm Hid Hd Hb Hs Hu.
  rewrite parseLogMetadata_REPORT
    by (rewrite Hm; unfold reportLine; apply startsWith_prefix).
  rewrite Hm. f_equal.
  - f_equal. unfold substr, reportLine.
    change (skipn 18 (str "REPORT RequestId: " ++ ?x)) with x.
    cbn [skipn app str map list_ascii_of_string].
    rewrite firstn_app, (isRequestId_length id Hid), Nat.sub_diag.
    rewrite firstn_all2 by (rewrite (isRequestId_length id Hid); lia).
    cbn [firstn]. apply app_nil_r.
  - f_equal. unfold reportMetadata.
    rewrite reportLine_segments, split_of_join; [|discriminate|].
    + cbn [fold_left].
      rewrite (reportPart_head _ _ Hid), (reportPart_duration _ _ Hd),
        reportPart_billed, (reportPart_memSize _ _ Hs),
        (reportPart_memUsed _ _ Hu).
      reflexivity.
    + destruct (isToken_hasNo _ Hd) as [Hd' _].
      destruct (isToken_hasNo _ Hb) as [Hb' _].
      destruct (isToken_hasNo _ Hs) as [Hs' _].
      destruct (isToken_hasNo _ Hu) as [Hu' _].
      cbn [forallb]. rewrite !hasNo_app, Hd', Hb', Hs', Hu'.
      rewrite (@isRequestId_hasNo TAB id eq_refl Hid). reflexivity.
Qed.

(** The REPORT line quoted in the comment of [parseLambdaREPORT], up to
    its memory-used segment. *)
Lemma report_line_fields_witness :
  parseLogMetadata
    (Event.mk (str "1") sampleStream 1000
       (reportLine sampleRequestId (str "2.63") (str "100") (str "1024")
          (str "58") ++ [LF]))
    (str "nodejs14.x")
  = Log.mk (str "1")
      (reportLine sampleRequestId (str "2.63") (str "100") (str "1024")
         (str "58"))
      1000 (Some REPORT) (Some sampleRequestId) sampleStream
      (Some (Meta.mk (Some (str "2.63")) (Some (str "1024"))
               (Some (str "58")) None None)).
Proof.
  exact (@report_line_fields_read_back
           (Event.mk (str "1") sampleStream 1000
              (reportLine sampleRequestId (str "2.63") (str "100")
                 (str "1024") (str "58") ++ [LF]))
           (str "nodejs14.x") sampleRequestId (str "2.63") (str "100")
           (str "1024") (str "58")
           eq_refl eq_refl eq_refl eq_refl eq_refl eq_refl).
Defined.

(** ** The lines behind each invocation *)

Lemma lastLine_snoc (block : list Log.t) (l : Log.t) :
  lastLine (block ++ [l]) = Some l.
Proof. unfold lastLine. now rewrite rev_unit. Qed.

Lemma lastLine_In (block : list Log.t) (l : Log.t) :
  lastLine block = Some l -> In l block.
Proof.
  unfold lastLine. destruct (rev block) as [|x r] eqn:E; [discriminate|].
  intros H. injection H as ->. apply in_rev. rewrite E. now left.
Qed.

Lemma lastLine_some (block : list Log.t) :
  block <> [] -> exists l, lastLine block = Some l.
Proof.
  intros H. destruct (exists_last H) as (b & l & ->).
  exists l. apply lastLine_snoc.
Qed.

Lemma reportOf_unreported (block : list Log.t) :
  Forall (fun l => levelIs REPORT l = false) block -> reportOf block = None.
Proof.
  intros H. unfold reportOf. destruct (lastLine block) as [l|] eqn:E; auto.
  rewrite Forall_forall in H. now rewrite (H l (lastLine_In _ E)).
Qed.

Lemma fromReport_unreported (A : Type) (f : Log.t -> option A)
    (block : list Log.t) :
  Forall (fun l => levelIs REPORT l = false) block ->
  fromReport f block = None.
Proof. intros H. unfold fromReport. now rewrite reportOf_unreported. Qed.

Lemma fromReport_snoc (A : Type) (f : Log.t -> option A)
    (block : list Log.t) (l : Log.t) :
  levelIs REPORT l = true -> fromReport f (block ++ [l]) = f l.
Proof.
  intros H. unfold fromReport, reportOf. now rewrite lastLine_snoc, H.
Qed.

Lemma chained_snoc (blocks : list (list Log.t)) (n : Log.t)
    (rest : list Log.t) :
  chained blocks -> lastBlock (fun b => boundary b n) blocks ->
  chained (blocks ++ [n :: rest]).
Proof.
  induction blocks as [|b1 bs IH]; intros Hc Hl; [exact I|].
  destruct bs as [|b2 bs].
  - cbn. split; [|exact I].
    destruct Hl as [Hl|(bs0 & b & E & Hb)]; [discriminate|].
    change [b1] with ([] ++ [b1]) in E.
    apply app_inj_tail in E. destruct E as [_ <-]. exact Hb.
  - cbn [app chained] in *. destruct b2 as [|m b2]; [contradiction|].
    destruct Hc as [H12 Hc]. split; [exact H12|].
    apply IH; [exact Hc|].
    destruct Hl as [Hl|(bs0 & b & E & Hb)]; [discriminate|].
    right. destruct bs0 as [|x bs0].
    + destruct bs; discriminate.
    + injection E as -> E. exists bs0, b. split; [exact E | exact Hb].
Qed.

Lemma carries_fresh : carries Invocation.fresh [].
Proof. constructor; cbn; auto. Qed.

Lemma opens_fresh : opens Invocation.fresh [].
Proof. constructor; cbn; auto. apply carries_fresh. Qed.

(** The accumulator a START line makes. *)
Lemma opens_start (log : Log.t) :
  levelIs START log = true ->
  opens
    (Invocation.mk [Log.message log] (Log.requestId log)
       (Some (Log.logStream log)) (Some (Log.timestamp log))
       (Some (Log.timestamp log)) None None None None None INFO)
    [log].
Proof.
  intros H. constructor; cbn; auto; try discriminate.
  - constructor; cbn; auto. now rewrite H.
  - constructor; [|constructor]. unfold levelIs in *.
    destruct (Log.level log) as [[]|]; auto; discriminate.
Qed.

(** Appending a line that is not a START line. *)
Lemma carries_append (cur : Invocation.t) (block : list Log.t)
    (log : Log.t) (endTime : option Z)
    (duration memSize memUsed xrayTraceId : option jsstring)
    (level : Level) :
  carries cur block ->
  (block = [] -> Invocation.startTime cur = None) ->
  levelIs START log = false ->
  Forall (fun l => Log.logStream l = Log.logStream log) block ->
  (level = Invocation.logLevel cur \/ level = INFO
   \/ (level = WARN /\ levelIs WARN log = true)
   \/ (level = ERROR /\ levelIs ERROR log = true)) ->
  carries
    (Invocation.mk (Invocation.logs cur ++ [Log.message log])
       (orString (Invocation.requestId cur) (Log.requestId log))
       (Some (Log.logStream log))
       (orNumber (Invocation.firstLineTime cur) (Log.timestamp log))
       (Invocation.startTime cur) endTime duration memSize memUsed
       xrayTraceId level)
    (block ++ [log]).
Proof.
  intros [Hl Hs Hst Htime Hflt Hreq Hlev] Hempty Hlog Hsame Hlevel.
  constructor; cbn.
  - now rewrite Hl, map_app.
  - apply Forall_app. split; [|now repeat constructor].
    eapply Forall_impl; [|exact Hsame]. cbn. now intros l ->.
  - destruct block as [|l block]; [constructor|]. cbn [app tl] in *.
    apply Forall_app. split; [exact Hst | now repeat constructor].
  - destruct block as [|l block]; cbn [app startOf] in *.
    + now rewrite Hlog.
    + exact Htime.
  - now rewrite fold_left_app, <- Hflt.
  - now rewrite fold_left_app, <- Hreq.
  - rewrite !existsb_app. cbn [existsb].
    destruct Hlevel as [->|[->|[[-> Hw]|[-> He]]]]; auto.
    + destruct Hlev as [H|[[H H']|[H H']]]; auto.
      * right. left. split; [exact H|]. now rewrite H'.
      * right. right. split; [exact H|]. now rewrite H'.
    + right. left. split; [reflexivity|]. rewrite Hw.
      now rewrite orb_true_r.
    + right. right. split; [reflexivity|]. rewrite He.
      now rewrite orb_true_r.
Qed.

Lemma opens_startTime_empty (cur : Invocation.t) (block : list Log.t) :
  opens cur block -> block = [] -> Invocation.startTime cur = None.
Proof.
  intros [[_ _ _ H _ _ _] _ _ _ _ _ _ _] ->. exact H.
Qed.

(** Pushing the accumulator closes its block. *)
Lemma opens_describes (cur : Invocation.t) (block : list Log.t) :
  opens cur block -> block <> [] -> describes cur block.
Proof.
  intros [Hc Hr He Hd Hs Hu Hx _] Hne.
  constructor; auto; rewrite ?fromReport_unreported by exact Hr; auto.
  rewrite Forall_forall in *. intros l Hl. apply Hr.
  destruct (exists_last Hne) as (b & x & ->).
  rewrite removelast_last in Hl. apply in_or_app. now left.
Qed.

Lemma pushIfAny_describes (invocations : list Invocation.t)
    (cur : Invocation.t) (blocks : list (list Log.t)) (block : list Log.t) :
  Forall2 describes invocations blocks -> opens cur block ->
  Forall2 describes (pushIfAny invocations cur) (blocks ++ closeBlock block).
Proof.
  intros Hi Ho. unfold pushIfAny.
  rewrite (carries_logs (opens_carries Ho)).
  destruct block as [|l block]; cbn [map closeBlock].
  - now rewrite app_nil_r.
  - apply Forall2_app; [exact Hi|]. constructor; [|constructor].
    apply opens_describes; [exact Ho | discriminate].
Qed.

(** The first part of a step: the accumulator is pushed and reset when
    the line is of another stream than the accumulator. *)
Lemma stream_stage_ghost (invocations : list Invocation.t)
    (cur : Invocation.t) (blocks : list (list Log.t)) (open : list Log.t)
    (log : Log.t) :
  groupGhost (invocations, cur) blocks open ->
  exists blocks1 open1,
    let st1 :=
      if streamDiffers log cur
      then (pushIfAny invocations cur, Invocation.fresh)
      else (invocations, cur) in
    Forall2 describes (fst st1) blocks1
    /\ opens (snd st1) open1
    /\ chained blocks1
    /\ match open1 with
       | n :: _ => lastBlock (fun b => boundary b n) blocks1
       | [] => lastBlock (fun b => boundary b log) blocks1
       end
    /\ List.concat blocks1 ++ open1 = List.concat blocks ++ open
    /\ Forall (fun l => Log.logStream l = Log.logStream log) open1.
Proof.
  intros (Hi & Ho & Hc & Hl). cbn [fst snd] in *.
  destruct (streamDiffers log cur) eqn:E.
  - exists (blocks ++ closeBlock open), []. cbn [fst snd].
    split; [now apply pushIfAny_describes|].
    split; [apply opens_fresh|].
    destruct open as [|n open]; cbn [closeBlock].
    + rewrite !app_nil_r. split; [exact Hc|].
      split; [|split; [reflexivity | constructor]].
      destruct Hl as [Hl|(bs & b & -> & l & Hb & Hr)]; [now left|].
      right. exists bs, b. split; [reflexivity|].
      unfold boundary. rewrite Hb. now left.
    + split; [now apply chained_snoc|].
      split; [|split; [|constructor]].
      * right. exists blocks, (n :: open). split; [reflexivity|].
        destruct (@lastLine_some (n :: open)) as [l Hlast]; [discriminate|].
        unfold boundary. rewrite Hlast. right. right.
        pose proof (carries_stream (opens_carries Ho)) as Hs.
        rewrite Forall_forall in Hs.
        specialize (Hs l (lastLine_In _ Hlast)).
        unfold streamDiffers in E. rewrite Hs in E.
        intros Heq. rewrite Heq in E.
        assert (Hrefl : JS.eqb (Log.logStream log) (Log.logStream log) = true)
          by now apply eqb_eq.
        rewrite Hrefl in E. discriminate.
      * rewrite concat_app. cbn. now rewrite !app_nil_r.
  - exists blocks, open. cbn [fst snd].
    unfold streamDiffers in E.
    destruct (Invocation.logStream cur) as [s|] eqn:Es; [|discriminate].
    apply negb_false_iff, eqb_eq in E.
    split; [exact Hi|]. split; [exact Ho|]. split; [exact Hc|].
    destruct open as [|n open].
    + pose proof (opens_empty Ho eq_refl) as Hn. congruence.
    + split; [exact Hl|]. split; [reflexivity|].
      pose proof (carries_stream (opens_carries Ho)) as Hs.
      eapply Forall_impl; [|exact Hs]. cbn. intros l Hl'. congruence.
Qed.

Lemma levelIs_of_level (v : Level) (log : Log.t) :
  Log.level log = Some v -> levelIs v log = true.
Proof. unfold levelIs. intros ->. now destruct v. Qed.

Lemma levelIs_other (u v : Level) (log : Log.t) :
  Log.level log = Some u -> Level_eqb u v = false -> levelIs v log = false.
Proof. unfold levelIs. now intros ->. Qed.

Lemma levelIs_unset (v : Level) (log : Log.t) :
  Log.level log = None -> levelIs v log = false.
Proof. unfold levelIs. now intros ->. Qed.

(** A line that is neither START nor REPORT joins the open block. *)
Lemma body_line_ghost (invocations : list Invocation.t)
    (cur : Invocation.t) (blocks : list (list Log.t)) (open : list Log.t)
    (log : Log.t) (level : Level) :
  Forall2 describes invocations blocks ->
  opens cur open ->
  chained blocks ->
  match open with
  | n :: _ => lastBlock (fun b => boundary b n) blocks
  | [] => lastBlock (fun b => boundary b log) blocks
  end ->
  Forall (fun l => Log.logStream l = Log.logStream log) open ->
  levelIs START log = false ->
  levelIs REPORT log = false ->
  (level = Invocation.logLevel cur \/ level = INFO
   \/ (level = WARN /\ levelIs WARN log = true)
   \/ (level = ERROR /\ levelIs ERROR log = true)) ->
  groupGhost
    (invocations,
     Invocation.mk (Invocation.logs cur ++ [Log.message log])
       (orString (Invocation.requestId cur) (Log.requestId log))
       (Some (Log.logStream log))
       (orNumber (Invocation.firstLineTime cur) (Log.timestamp log))
       (Invocation.startTime cur) (Invocation.endTime cur)
       (Invocation.duration cur) (Invocation.memSize cur)
       (Invocation.memUsed cur) (Invocation.xrayTraceId cur) level)
    blocks (open ++ [log]).
Proof.
  intros Hi Ho Hc Hl Hsame Hs Hr Hlevel.
  split; [exact Hi|]. split; [|split; [exact Hc|]].
  - constructor; cbn; try apply Ho.
    + apply carries_append; auto; [apply Ho|].
      now apply opens_startTime_empty.
    + apply Forall_app. split; [apply Ho | now repeat constructor].
    + intros H. now apply app_one_not_nil in H.
  - destruct open; exact Hl.
Qed.

(** Each step extends the blocks by the line it reads. *)
Lemma groupStep_ghost (st : GroupState) (blocks : list (list Log.t))
    (open : list Log.t) (log : Log.t) :
  groupGhost st blocks open ->
  exists blocks' open',
    groupGhost (groupStep st log) blocks' open'
    /\ List.concat blocks' ++ open' = (List.concat blocks ++ open) ++ [log].
Proof.
  destruct st as [invocations cur]. intros H.
  destruct (stream_stage_ghost log H)
    as (blocks1 & open1 & Hi & Ho & Hc & Hl & Hcat & Hsame).
  unfold groupStep.
  destruct (if streamDiffers log cur then _ else _) as [invs1 cur1].
  cbn [fst snd] in *. rewrite <- Hcat. clear H Hcat.
  destruct (Log.level log) as [[]|] eqn:El.
  - (* START *)
    exists (blocks1 ++ closeBlock open1), [log]. split.
    + split; [now apply pushIfAny_describes|].
      split; [now apply opens_start, levelIs_of_level|].
      destruct open1 as [|n open1]; cbn [closeBlock];
        rewrite ?app_nil_r.
      * split; assumption.
      * split; [now apply chained_snoc|].
        right. exists blocks1, (n :: open1). split; [reflexivity|].
        destruct (@lastLine_some (n :: open1)) as [l Hlast]; [discriminate|].
        unfold boundary. rewrite Hlast. right. left.
        now apply levelIs_of_level.
    + rewrite concat_app. destruct open1; cbn; now rewrite ?app_nil_r.
  - (* END *)
    exists blocks1, (open1 ++ [log]). split; [|now rewrite app_assoc].
    apply body_line_ghost; auto;
      try (eapply levelIs_other; [exact El | reflexivity]).
  - (* REPORT *)
    exists (blocks1 ++ [open1 ++ [log]]), []. split.
    + split; [|split; [apply opens_fresh|split]].
      * cbn [fst]. apply Forall2_app; [exact Hi|].
        constructor; [|constructor].
        assert (Hrep : levelIs REPORT log = true)
          by now apply levelIs_of_level.
        constructor; cbn; rewrite ?fromReport_snoc by exact Hrep; auto.
        -- apply carries_append; auto;
             [apply Ho | now apply (@opens_startTime_empty cur1 open1)
             | eapply levelIs_other; [exact El | reflexivity]].
        -- apply app_one_not_nil.
        -- rewrite removelast_last. apply Ho.
      * destruct open1 as [|n open1]; cbn [app];
          now apply chained_snoc.
      * right. exists blocks1, (open1 ++ [log]). split; [reflexivity|].
        exists log. split; [apply lastLine_snoc|].
        now apply levelIs_of_level.
    + rewrite concat_app. cbn. now rewrite !app_nil_r, app_assoc.
  - (* INFO *)
    exists blocks1, (open1 ++ [log]). split; [|now rewrite app_assoc].
    apply body_line_ghost; auto;
      try (eapply levelIs_other; [exact El | reflexivity]).
  - (* WARN *)
    exists blocks1, (open1 ++ [log]). split; [|now rewrite app_assoc].
    apply body_line_ghost; auto;
      try (eapply levelIs_other; [exact El | reflexivity]).
    destruct (Level_eqb (Invocation.logLevel cur1) ERROR); auto.
    right. right. left. split; [reflexivity|].
    now apply levelIs_of_level.
  - (* ERROR *)
    exists blocks1, (open1 ++ [log]). split; [|now rewrite app_assoc].
    apply body_line_ghost; auto;
      try (eapply levelIs_other; [exact El | reflexivity]).
    right. right. right. split; [reflexivity|].
    now apply levelIs_of_level.
  - (* no level *)
    exists blocks1, (open1 ++ [log]). split; [|now rewrite app_assoc].
    apply body_line_ghost; auto; now apply levelIs_unset.
Qed.

Lemma groupInit_ghost : groupGhost groupInit [] [].
Proof.
  split; [constructor|]. split; [apply opens_fresh|].
  split; [exact I | now left].
Qed.

Lemma fold_groupStep_ghost (logs : list Log.t) :
  forall (st : GroupState) (blocks : list (list Log.t)) (open : list Log.t),
    groupGhost st blocks open ->
    exists blocks' open',
      groupGhost (fold_left groupStep logs st) blocks' open'
      /\ List.concat blocks' ++ open' = (List.concat blocks ++ open) ++ logs.
Proof.
  induction logs as [|log logs IH]; intros st blocks open H.
  - exists blocks, open. split; [exact H | now rewrite app_nil_r].
  - destruct (groupStep_ghost log H) as (b1 & o1 & H1 & E1).
    destruct (IH _ _ _ H1) as (b2 & o2 & H2 & E2).
    exists b2, o2. split; [exact H2|].
    rewrite E2, E1, <- app_assoc. reflexivity.
Qed.

(** The invocations in push order, block by block: the blocks are the
    input cut into consecutive runs, each block is what its invocation
    was built from, and each cut has its reason. *)
Lemma flushed_blocks (logs : list Log.t) :
  exists blocks,
    List.concat blocks = logs
    /\ Forall2 describes (flushed logs) blocks
    /\ chained blocks.
Proof.
  destruct (fold_groupStep_ghost logs groupInit_ghost)
    as (blocks & open & (Hi & Ho & Hc & Hl) & E).
  cbn [List.concat app] in E. unfold flushed.
  destruct (fold_left groupStep logs groupInit) as [invocations cur].
  cbn [fst snd] in *.
  exists (blocks ++ closeBlock open). split; [|split].
  - rewrite concat_app, <- E.
    destruct open; cbn; now rewrite ?app_nil_r.
  - now apply pushIfAny_describes.
  - destruct open as [|n open]; cbn [closeBlock].
    + now rewrite app_nil_r.
    + now apply chained_snoc.
Qed.

Lemma Forall2_segments (P : Invocation.t -> list Log.t -> Prop)
    (invocations : list Invocation.t) (blocks : list (list Log.t)) :
  Forall2 P invocations blocks ->
  Forall
    (fun inv =>
       exists pre block post,
         List.concat blocks = pre ++ block ++ post /\ P inv block)
    invocations.
Proof.
  induction 1 as [|inv b invocations blocks Hp _ IH]; constructor.
  - exists [], b, (List.concat blocks). split; [reflexivity | exact Hp].
  - eapply Forall_impl; [|exact IH]. cbn.
    intros inv' (pre & block & post & E & Hb).
    exists (b ++ pre), block, post. split; [|exact Hb].
    now rewrite E, <- app_assoc.
Qed.

(** Every invocation returned was built from a run of consecutive input
    lines, and whatever holds of a pushed invocation and its block holds
    of it and that run. *)
Lemma groupLogs_segments (P : Invocation.t -> list Log.t -> Prop)
    (logs : list Log.t) :
  (forall inv block, describes inv block -> P inv block) ->
  Forall
    (fun inv =>
       exists pre block post, logs = pre ++ block ++ post /\ P inv block)
    (groupLogs logs).
Proof.
  intros HP.
  destruct (flushed_blocks logs) as (blocks & E & Hd & _).
  eapply Permutation_Forall; [apply Permutation_sym, groupLogs_perm|].
  eapply Forall_impl; [|apply (Forall2_segments Hd)]. cbn.
  intros inv (pre & block & post & E' & Hb).
  exists pre, block, post. split; [congruence | now apply HP].
Qed.

(** X11. Every invocation returned holds the messages of a non-empty run
    of consecutive input lines, in order, and all those lines are of the
    invocation's log stream: no invocation mixes two streams. *)
Theorem invocation_is_a_run_of_one_stream (logs : list Log.t) :
  Forall
    (fun inv =>
       exists pre block post,
         logs = pre ++ block ++ post
         /\ (block <> []
             /\ Invocation.logs inv = map Log.message block
             /\ Forall
                  (fun l => Invocation.logStream inv = Some (Log.logStream l))
                  block))
    (groupLogs logs).
Proof.
  apply groupLogs_segments. intros inv block H.
  split; [apply H|]. split; apply H.
Qed.

(** X12. Within the run of lines an invocation was built from, a START
    line can only be the first line and a REPORT line only the last. *)
Theorem markers_delimit_invocation (logs : list Log.t) :
  Forall
    (fun inv =>
       exists pre block post,
         logs = pre ++ block ++ post
         /\ (Invocation.logs inv = map Log.message block
             /\ Forall (fun l => levelIs START l = false) (tl block)
             /\ Forall (fun l => levelIs REPORT l = false)
                  (removelast block)))
    (groupLogs logs).
Proof.
  apply groupLogs_segments. intros inv block H.
  split; [apply H|]. split; apply H.
Qed.

(** X13. An invocation has a start time exactly when its first line is a
    START line, and it is that line's timestamp; it has an end time
    exactly when its last line is a REPORT line, and it is that line's
    timestamp. *)
Theorem start_and_end_time_come_from_markers (logs : list Log.t) :
  Forall
    (fun inv =>
       exists pre block post,
         logs = pre ++ block ++ post
         /\ (Invocation.logs inv = map Log.message block
             /\ Invocation.startTime inv
                = option_map Log.timestamp (startOf block)
             /\ Invocation.endTime inv
                = option_map Log.timestamp (reportOf block)))
    (groupLogs logs).
Proof.
  apply groupLogs_segments. intros inv block H.
  split; [apply H|]. split; [apply H|].
  rewrite (describes_endTime H). unfold fromReport.
  now destruct (reportOf block).
Qed.

(** X14. The duration, memory size, memory used and trace id of an
    invocation are those of the metadata of its closing REPORT line, and
    all four are unset when its last line is not a REPORT line. *)
Theorem report_fields_come_from_report_line (logs : list Log.t) :
  Forall
    (fun inv =>
       exists pre block post,
         logs = pre ++ block ++ post
         /\ (Invocation.logs inv = map Log.message block
             /\ Invocation.duration inv
                = fromReport (metaField Meta.duration) block
             /\ Invocation.memSize inv
                = fromReport (metaField Meta.memSize) block
             /\ Invocation.memUsed inv
                = fromReport (metaField Meta.memUsed) block
             /\ Invocation.xrayTraceId inv
                = fromReport (metaField Meta.xrayTraceId) block))
    (groupLogs logs).
Proof.
  apply groupLogs_segments. intros inv block H.
  split; [apply H|]. repeat split; apply H.
Qed.

(** X15. The aggregate level of an invocation is INFO, WARN or ERROR,
    and it is WARN only if one of the invocation's lines is a WARN line
    and ERROR only if one of them is an ERROR line. *)
Theorem aggregate_level_is_witnessed (logs : list Log.t) :
  Forall
    (fun inv =>
       exists pre block post,
         logs = pre ++ block ++ post
         /\ (Invocation.logs inv = map Log.message block
             /\ (Invocation.logLevel inv = INFO
                 \/ (Invocation.logLevel inv = WARN
                     /\ existsb (levelIs WARN) block = true)
                 \/ (Invocation.logLevel inv = ERROR
                     /\ existsb (levelIs ERROR) block = true))))
    (groupLogs logs).
Proof.
  apply groupLogs_segments. intros inv block H.
  split; apply H.
Qed.

Lemma fold_orString_kept (block : list Log.t) (a : option jsstring) :
  hasId a = true ->
  fold_left (fun a l => orString a (Log.requestId l)) block a = a.
Proof.
  revert a. induction block as [|l block IH]; intros a H; [reflexivity|].
  cbn [fold_left].
  assert (E : orString a (Log.requestId l) = a)
    by (destruct a as [[|c s]|]; try discriminate; reflexivity).
  rewrite E. now apply IH.
Qed.

Lemma fold_orString_find (block : list Log.t) (a : option jsstring) :
  hasId a = false ->
  match find (fun l => hasId (Log.requestId l)) block with
  | Some l =>
      fold_left (fun a l => orString a (Log.requestId l)) block a
      = Log.requestId l
  | None =>
      hasId (fold_left (fun a l => orString a (Log.requestId l)) block a)
      = false
  end.
Proof.
  revert a. induction block as [|l block IH]; intros a H; [exact H|].
  cbn [fold_left find].
  assert (E : orString a (Log.requestId l) = Log.requestId l)
    by (destruct a as [[|c s]|]; try discriminate; reflexivity).
  rewrite E.
  destruct (hasId (Log.requestId l)) eqn:Hl.
  - now apply fold_orString_kept.
  - now apply IH.
Qed.

(** X16. The request id of an invocation is that of the first of its
    lines that carries a non-empty one; if none does, the invocation has
    no non-empty request id. *)
Theorem request_id_is_first_found (logs : list Log.t) :
  Forall
    (fun inv =>
       exists pre block post,
         logs = pre ++ block ++ post
         /\ (Invocation.logs inv = map Log.message block
             /\ match find (fun l => hasId (Log.requestId l)) block with
                | Some l => Invocation.requestId inv = Log.requestId l
                | None => hasId (Invocation.requestId inv) = false
                end))
    (groupLogs logs).
Proof.
  apply groupLogs_segments. intros inv block H.
  split; [apply H|].
  rewrite (carries_requestId (describes_carries H)).
  now apply fold_orString_find.
Qed.

Lemma fold_orNumber_kept (block : list Log.t) (t : Z) :
  t <> 0%Z ->
  fold_left (fun a l => orNumber a (Log.timestamp l)) block (Some t)
  = Some t.
Proof.
  intros Ht. induction block as [|l block IH]; [reflexivity|].
  cbn [fold_left orNumber].
  destruct (Z.eqb_spec t 0); [contradiction | exact IH].
Qed.

(** X17. When no line has timestamp 0, the first-line time of every
    invocation is the timestamp of the first of its lines. *)
Theorem first_line_time_is_first_timestamp (logs : list Log.t) :
  Forall (fun l => Log.timestamp l <> 0%Z) logs ->
  Forall
    (fun inv =>
       exists pre first rest post,
         logs = pre ++ (first :: rest) ++ post
         /\ Invocation.logs inv = map Log.message (first :: rest)
         /\ Invocation.firstLineTime inv = Some (Log.timestamp first))
    (groupLogs logs).
Proof.
  intros Hnz.
  pose proof (@groupLogs_segments describes logs (fun _ _ H => H)) as H.
  eapply Forall_impl; [|exact H]. cbn.
  intros inv (pre & block & post & E & Hd).
  destruct block as [|first rest]; [now elim (describes_nonempty Hd)|].
  exists pre, first, rest, post. split; [exact E|]. split; [apply Hd|].
  rewrite (carries_firstLineTime (describes_carries Hd)).
  cbn [fold_left orNumber]. apply fold_orNumber_kept.
  rewrite Forall_forall in Hnz. apply Hnz. rewrite E.
  apply in_or_app. right. now left.
Qed.

(** X18. In push order, two consecutive invocations are separated only
    where the earlier one ended with a REPORT line, or the later one
    begins with a START line, or the two lines on either side of the cut
    are of different log streams. *)
Theorem invocations_split_only_at_boundaries (logs : list Log.t) :
  exists blocks,
    List.concat blocks = logs
    /\ map Invocation.logs (flushed logs) = map (map Log.message) blocks
    /\ chained blocks.
Proof.
  destruct (flushed_blocks logs) as (blocks & E & Hd & Hc).
  exists blocks. split; [exact E|]. split; [|exact Hc].
  clear E Hc. induction Hd as [|inv b invs bs H _ IH]; [reflexivity|].
  cbn [map]. now rewrite IH, (carries_logs (describes_carries H)).
Qed.

(** Three lines of one stream, with non-zero timestamps. *)
Lemma first_line_time_witness :
  Forall
    (fun inv =>
       exists pre first rest post,
         map (fun event => parseLogMetadata event (str "nodejs14.x"))
           infoErrorInfo
         = pre ++ (first :: rest) ++ post
         /\ Invocation.logs inv = map Log.message (first :: rest)
         /\ Invocation.firstLineTime inv = Some (Log.timestamp first))
    (groupLogs
       (map (fun event => parseLogMetadata event (str "nodejs14.x"))
          infoErrorInfo)).
Proof.
  apply first_line_time_is_first_timestamp.
  repeat constructor; discriminate.
Defined.

(** ** A complete invocation *)

Lemma levelIs_level (v : Level) (log : Log.t) :
  levelIs v log = true -> Log.level log = Some v.
Proof.
  unfold levelIs. destruct (Log.level log) as [u|]; [|discriminate].
  destruct u, v; try discriminate; reflexivity.
Qed.

Lemma streamDiffers_same (log : Log.t) (cur : Invocation.t) :
  Invocation.logStream cur = Some (Log.logStream log) ->
  streamDiffers log cur = false.
Proof.
  intros H. unfold streamDiffers. rewrite H.
  assert (E : JS.eqb (Log.logStream log) (Log.logStream log) = true)
    by now apply eqb_eq.
  now rewrite E.
Qed.

(** Lines of the accumulator's stream that are neither START nor REPORT
    lines are appended to it and nothing is pushed. *)
Lemma fold_groupStep_body (s : jsstring) (body : list Log.t) :
  forall (invocations : list Invocation.t) (cur : Invocation.t),
    Invocation.logStream cur = Some s ->
    Forall
      (fun l => Log.logStream l = s
                /\ levelIs START l = false /\ levelIs REPORT l = false)
      body ->
    exists cur',
      fold_left groupStep body (invocations, cur) = (invocations, cur')
      /\ Invocation.logs cur' = Invocation.logs cur ++ map Log.message body
      /\ Invocation.logStream cur' = Some s
      /\ Invocation.startTime cur' = Invocation.startTime cur
      /\ (hasId (Invocation.requestId cur) = true ->
          Invocation.requestId cur' = Invocation.requestId cur).
Proof.
  induction body as [|l body IH]; intros invocations cur Hs Hb.
  - exists cur. cbn. rewrite app_nil_r. auto.
  - inversion Hb as [|? ? (Hl & Hst & Hrp) Hb']; subst.
    cbn [fold_left]. unfold groupStep at 2.
    rewrite streamDiffers_same by exact Hs.
    assert (Hlevel : Log.level l <> Some START /\ Log.level l <> Some REPORT).
    { split; intros E; [rewrite (levelIs_of_level l E) in Hst
                       | rewrite (levelIs_of_level l E) in Hrp];
        discriminate. }
    destruct Hlevel as [H1 H2].
    destruct (Log.level l) as [[]|] eqn:El; try congruence;
      match goal with
      | |- context [fold_left groupStep body (invocations, ?c)] =>
          destruct (IH invocations c eq_refl Hb')
            as (cur' & E & Hlogs & Hstream & Hstart & Hreq);
          exists cur'; cbn in *; rewrite E, Hlogs, <- app_assoc;
          (split; [reflexivity|]); (split; [reflexivity|]);
          (split; [exact Hstream|]); (split; [exact Hstart|]);
          intros Hid; rewrite Hreq;
          destruct (Invocation.requestId cur) as [[|? ?]|];
          try discriminate; reflexivity
      end.
Qed.

(** X19. A START line, then lines of the same stream that are neither
    START nor REPORT lines, then a REPORT line of that stream, give
    exactly one invocation: it holds all the messages, its start time is
    the START line's timestamp, its end time the REPORT line's, its
    duration and memory fields those of the REPORT line, and its request
    id the START line's when that is not empty. *)
Theorem complete_invocation
    (start report : Log.t) (body : list Log.t) :
  levelIs START start = true ->
  levelIs REPORT report = true ->
  Forall
    (fun l => Log.logStream l = Log.logStream start
              /\ levelIs START l = false /\ levelIs REPORT l = false)
    body ->
  Log.logStream report = Log.logStream start ->
  exists inv,
    groupLogs (start :: body ++ [report]) = [inv]
    /\ Invocation.logs inv = map Log.message (start :: body ++ [report])
    /\ Invocation.startTime inv = Some (Log.timestamp start)
    /\ Invocation.endTime inv = Some (Log.timestamp report)
    /\ Invocation.duration inv = metaField Meta.duration report
    /\ Invocation.memSize inv = metaField Meta.memSize report
    /\ Invocation.memUsed inv = metaField Meta.memUsed report
    /\ (hasId (Log.requestId start) = true ->
        Invocation.requestId inv = Log.requestId start).
Proof.
  intros Hstart Hreport Hbody Hstream.
  unfold groupLogs, flushed. cbn [fold_left].
  unfold groupStep at 2. cbn [groupInit streamDiffers Invocation.fresh
                                Invocation.logStream pushIfAny
                                Invocation.logs].
  rewrite (levelIs_level _ _ Hstart). cbn [pushIfAny Invocation.logs].
  rewrite fold_left_app.
  match goal with
  | |- context [fold_left groupStep body ([], ?c)] =>
      destruct (@fold_groupStep_body (Log.logStream start) body [] c
                  eq_refl Hbody)
        as (cur' & E & Hlogs & Hs & Hst & Hreq)
  end.
  rewrite E. cbn [fold_left]. unfold groupStep.
  rewrite streamDiffers_same by (rewrite Hs; now rewrite Hstream).
  rewrite (levelIs_level _ _ Hreport).
  cbn [app pushIfAny Invocation.logs Invocation.fresh sort fold_right
         insertSorted].
  eexists. split; [reflexivity|]. cbn in *.
  rewrite Hlogs, Hst, map_app. repeat split; auto.
  intros Hid. rewrite (Hreq Hid).
  destruct (Log.requestId start) as [[|? ?]|]; try discriminate; reflexivity.
Qed.

(** The four lines of [completeEvents], classified. *)
Lemma complete_invocation_witness :
  exists inv,
    groupLogs
      (map (fun event => parseLogMetadata event (str "python3.8"))
         completeEvents)
    = [inv]
    /\ Invocation.startTime inv = Some 997%Z
    /\ Invocation.endTime inv = Some 1000%Z
    /\ Invocation.duration inv = Some (str "1")
    /\ Invocation.requestId inv = Some sampleRequestId.
Proof.
  destruct (@complete_invocation
              (parseLogMetadata (nth 0 completeEvents plainEvent)
                 (str "python3.8"))
              (parseLogMetadata (nth 3 completeEvents plainEvent)
                 (str "python3.8"))
              [parseLogMetadata (nth 1 completeEvents plainEvent)
                 (str "python3.8");
               parseLogMetadata (nth 2 completeEvents plainEvent)
                 (str "python3.8")])
    as (inv & E & _ & Hs & He & Hd & _ & _ & Hr);
    [reflexivity | reflexivity | repeat constructor | reflexivity |].
  exists inv. split; [exact E|]. split; [exact Hs|]. split; [exact He|].
  split; [exact Hd|]. apply Hr. reflexivity.
Defined.

(** ** Further properties of the normalizer *)

Lemma existsb_eqb_In (k : jsstring) (seen : list jsstring) :
  existsb (JS.eqb k) seen = true <-> In k seen.
Proof.
  rewrite existsb_exists. split.
  - intros (x & Hx & E). apply eqb_eq in E. now subst.
  - intros H. exists k. split; [exact H | now apply eqb_eq].
Qed.

Lemma uniqByAux_distinct (A : Type) (key : A -> jsstring) (l : list A) :
  forall seen,
    (forall x, In x l -> ~ In (key x) seen) ->
    NoDup (map key l) ->
    uniqByAux key seen l = l.
Proof.
  induction l as [|x l IH]; intros seen Hs Hn; [reflexivity|].
  cbn [uniqByAux]. inversion Hn as [|? ? Hx Hn']; subst.
  destruct (existsb (JS.eqb (key x)) seen) eqn:E.
  - apply existsb_eqb_In in E. now elim (Hs x (or_introl eq_refl)).
  - f_equal. apply IH; [|exact Hn'].
    intros y Hy [Hk|Hk].
    + apply Hx. rewrite Hk. now apply in_map.
    + apply (Hs y); [now right | exact Hk].
Qed.

Lemma uniqByAux_seen (A : Type) (key : A -> jsstring) (l : list A) :
  forall seen,
    (forall x, In x l -> In (key x) seen) -> uniqByAux key seen l = [].
Proof.
  induction l as [|x l IH]; intros seen Hs; [reflexivity|].
  cbn [uniqByAux].
  assert (E : existsb (JS.eqb (key x)) seen = true)
    by (apply existsb_eqb_In, Hs; now left).
  rewrite E. apply IH. intros y Hy. apply Hs. now right.
Qed.

Lemma uniqByAux_app_known (A : Type) (key : A -> jsstring)
    (l extra : list A) :
  forall seen,
    (forall e, In e extra -> In (key e) seen \/ In (key e) (map key l)) ->
    uniqByAux key seen (l ++ extra) = uniqByAux key seen l.
Proof.
  induction l as [|x l IH]; intros seen H.
  - cbn [app uniqByAux]. apply uniqByAux_seen.
    intros e He. destruct (H e He) as [Hs|[]]. exact Hs.
  - cbn [app uniqByAux].
    destruct (existsb (JS.eqb (key x)) seen) eqn:E.
    + apply existsb_eqb_In in E. apply IH.
      intros e He. destruct (H e He) as [Hs|[Hk|Hk]]; auto.
      left. now rewrite <- Hk.
    + f_equal. apply IH.
      intros e He. destruct (H e He) as [Hs|[Hk|Hk]]; auto.
      * left. now right.
      * left. now left.
Qed.

Lemma sort_sorted (A : Type) (compareFn : A -> A -> Z) (l : list A) :
  Sorted (fun a b => (compareFn a b <= 0)%Z) l -> sort compareFn l = l.
Proof.
  induction 1 as [|x l Hs IH Hhd]; [reflexivity|].
  cbn [sort fold_right]. fold (sort compareFn l). rewrite IH.
  destruct Hhd as [|y r Hxy]; [reflexivity|].
  cbn [insertSorted]. apply Z.leb_le in Hxy. now rewrite Hxy.
Qed.

Lemma compareSortKey_keyLe (a b : Event.t) :
  keyLe a b <-> (compareSortKey a b <= 0)%Z.
Proof.
  unfold keyLe, compareSortKey. split.
  - intros ->. destruct (JS.ltb (sortKey a) (sortKey b)); lia.
  - destruct (JS.ltb (sortKey a) (sortKey b)) eqn:E.
    + intros _. now apply ltb_asym.
    + destruct (JS.ltb (sortKey b) (sortKey a)); [lia | reflexivity].
Qed.

Lemma sortLogs_Sorted (logs : list Event.t) :
  Sorted keyLe (sortLogs logs).
Proof.
  apply sort_Sorted with (good := fun _ => True).
  - intros x y _ _. apply compareSortKey_keyLe.
  - intros x y _ _ H. unfold keyLe, compareSortKey in *.
    destruct (JS.ltb (sortKey x) (sortKey y)); [lia | reflexivity].
  - apply Forall_forall. auto.
Qed.

Lemma normalized_NoDup (events : list Event.t) :
  NoDup (map Event.eventId (sortLogs (uniqBy events Event.eventId))).
Proof.
  destruct (uniqByAux_spec Event.eventId events []) as (Hn & _).
  eapply Permutation_NoDup; [|exact Hn].
  apply Permutation_map, Permutation_sym, sort_perm.
Qed.

(** X21. Normalizing is idempotent: deduplicating and sorting an already
    normalized sequence leaves it as it is. *)
Theorem normalizer_idempotent (events : list Event.t) :
  let normalized := sortLogs (uniqBy events Event.eventId) in
  sortLogs (uniqBy normalized Event.eventId) = normalized.
Proof.
  intros normalized.
  assert (Hu : uniqBy normalized Event.eventId = normalized).
  { apply uniqByAux_distinct; [intros x _ [] | apply normalized_NoDup]. }
  rewrite Hu. apply sort_sorted.
  eapply Sorted_ind with (P := Sorted _);
    [constructor | | apply sortLogs_Sorted].
  intros a l _ IH Hhd. constructor; [exact IH|].
  destruct Hhd; constructor. now apply compareSortKey_keyLe.
Qed.

(** X22. Events whose identifiers are already among the events before
    them change nothing: fetching a page again, or an overlapping one,
    gives the same invocations. *)
Theorem refetched_events_change_nothing
    (events extra : list Event.t) (runtime : jsstring) :
  Forall
    (fun e => In (Event.eventId e) (map Event.eventId events)) extra ->
  useLogsQuery (events ++ extra) runtime = useLogsQuery events runtime.
Proof.
  intros H. unfold useLogsQuery, uniqBy.
  rewrite uniqByAux_app_known; [reflexivity|].
  rewrite Forall_forall in H. intros e He. right. now apply H.
Qed.

Lemma refetched_events_witness :
  useLogsQuery (completeEvents ++ completeEvents) (str "python3.8")
  = useLogsQuery completeEvents (str "python3.8").
Proof.
  apply refetched_events_change_nothing.
  repeat constructor; cbn; tauto.
Defined.

Lemma ltb_total (a b : jsstring) :
  JS.ltb a b = false -> JS.ltb b a = false -> a = b.
Proof.
  revert b. induction a as [|x a IH]; intros [|y b]; cbn [JS.ltb];
    try discriminate; [reflexivity|].
  destruct (N.ltb_spec x y); [discriminate|].
  destruct (N.ltb_spec y x); [discriminate|].
  intros Hab Hba. f_equal; [lia | now apply IH].
Qed.

Lemma key_injective (A : Type) (key : A -> jsstring) (l : list A) :
  NoDup (map key l) ->
  forall a b, In a l -> In b l -> key a = key b -> a = b.
Proof.
  induction l as [|x l IH]; intros Hn a b Ha Hb E; [contradiction|].
  inversion Hn as [|? ? Hx Hn']; subst.
  destruct Ha as [<-|Ha], Hb as [<-|Hb]; auto.
  - elim Hx. rewrite E. now apply in_map.
  - elim Hx. rewrite <- E. now apply in_map.
Qed.

(** Two sorted arrangements of the same elements are the same when ties
    are impossible. *)
Lemma sorted_perm_unique (A : Type) (R : A -> A -> Prop) (l : list A) :
  forall l',
    StronglySorted R l -> StronglySorted R l' -> Permutation l l' ->
    (forall a b, In a l -> In b l -> R a b -> R b a -> a = b) ->
    l = l'.
Proof.
  induction l as [|a r IH]; intros l' Hs Hs' Hp Hanti.
  - apply Permutation_nil in Hp. now subst.
  - destruct l' as [|a' r'].
    { apply Permutation_sym, Permutation_nil in Hp. discriminate. }
    inversion Hs as [|? ? Hr Ha]; subst.
    inversion Hs' as [|? ? Hr' Ha']; subst.
    rewrite Forall_forall in Ha, Ha'.
    assert (E : a = a').
    { assert (Hin : In a (a' :: r'))
        by (eapply Permutation_in; [exact Hp | now left]).
      assert (Hin' : In a' (a :: r))
        by (eapply Permutation_in;
            [apply Permutation_sym; exact Hp | now left]).
      destruct Hin as [->|Hin]; [reflexivity|].
      destruct Hin' as [->|Hin']; [reflexivity|].
      apply Hanti; [now left | now right | now apply Ha | now apply Ha']. }
    subst a'. f_equal. apply IH; auto.
    + eapply Permutation_cons_inv; exact Hp.
    + intros x y Hx Hy. apply Hanti; now right.
Qed.

Lemma sortLogs_StronglySorted (logs : list Event.t) :
  StronglySorted keyLe (sortLogs logs).
Proof.
  apply Sorted_StronglySorted; [|apply sortLogs_Sorted].
  intros a b c Hab Hbc. unfold keyLe in *.
  eapply ltb_le_trans; eassumption.
Qed.

(** X23. When the events have distinct identifiers and distinct sort
    keys, the invocations do not depend on the order in which the events
    arrive. *)
Theorem order_of_events_is_irrelevant
    (events events' : list Event.t) (runtime : jsstring) :
  Permutation events events' ->
  NoDup (map Event.eventId events) ->
  NoDup (map sortKey events) ->
  useLogsQuery events runtime = useLogsQuery events' runtime.
Proof.
  intros Hp Hid Hkey. unfold useLogsQuery.
  assert (Hu : uniqBy events Event.eventId = events)
    by (apply uniqByAux_distinct; [intros x _ [] | exact Hid]).
  assert (Hu' : uniqBy events' Event.eventId = events').
  { apply uniqByAux_distinct; [intros x _ []|].
    eapply Permutation_NoDup; [|exact Hid]. now apply Permutation_map. }
  rewrite Hu, Hu'.
  assert (Hs : sortLogs events = sortLogs events').
  { apply sorted_perm_unique with (R := keyLe);
      try apply sortLogs_StronglySorted.
    - eapply perm_trans; [apply sort_perm|].
      eapply perm_trans; [exact Hp|]. apply Permutation_sym, sort_perm.
    - intros a b Ha Hb Hab Hba.
      apply (key_injective sortKey events Hkey).
      + eapply Permutation_in; [apply sort_perm | exact Ha].
      + eapply Permutation_in; [apply sort_perm | exact Hb].
      + unfold keyLe in *. now apply ltb_total. }
  now rewrite Hs.
Qed.

Lemma order_of_events_witness :
  useLogsQuery completeEvents (str "python3.8")
  = useLogsQuery (rev completeEvents) (str "python3.8").
Proof.
  apply order_of_events_is_irrelevant.
  - apply Permutation_rev.
  - repeat constructor; vm_compute; intuition discriminate.
  - repeat constructor; vm_compute; intuition discriminate.
Defined.

Lemma ltb_app_same_length (s1 s2 x y : jsstring) :
  List.length s1 = List.length s2 -> s1 <> s2 ->
  JS.ltb (s1 ++ x) (s2 ++ y) = JS.ltb s1 s2.
Proof.
  revert s2. induction s1 as [|c s1 IH]; intros [|d s2] Hlen Hne;
    try discriminate; [now elim Hne|].
  cbn [app JS.ltb].
  destruct (N.ltb_spec c d); [reflexivity|].
  destruct (N.ltb_spec d c); [reflexivity|].
  apply IH; [now injection Hlen|].
  intros ->. apply Hne. f_equal. lia.
Qed.

Lemma StronglySorted_distinct (l : list Event.t)
    (R : Event.t -> Event.t -> Prop) :
  StronglySorted R l -> NoDup (map Event.eventId l) ->
  StronglySorted (fun a b => R a b /\ Event.eventId a <> Event.eventId b) l.
Proof.
  induction 1 as [|a l Hs IH Ha]; intros Hn; constructor.
  - apply IH. now inversion Hn.
  - inversion Hn as [|? ? Hnot _]; subst.
    rewrite Forall_forall in *. intros b Hb. split; [now apply Ha|].
    intros E. apply Hnot. rewrite E. now apply in_map.
Qed.

Lemma keyLe_pair_order (l : list Event.t) (n : nat) :
  StronglySorted
    (fun a b => keyLe a b /\ Event.eventId a <> Event.eventId b) l ->
  Forall (fun e => List.length (Event.logStreamName e) = n) l ->
  StronglySorted
    (fun a b =>
       JS.ltb (Event.logStreamName a) (Event.logStreamName b) = true
       \/ (Event.logStreamName a = Event.logStreamName b
           /\ JS.ltb (Event.eventId a) (Event.eventId b) = true))
    l.
Proof.
  induction 1 as [|a l Hs IH Ha]; intros Hall; constructor.
  - apply IH. now inversion Hall.
  - inversion Hall as [|? ? Hla Hl]; subst.
    rewrite Forall_forall in *. intros b Hb.
    destruct (Ha b Hb) as [Hab Hid]. unfold keyLe, sortKey in Hab.
    destruct (list_eq_dec N.eq_dec (Event.logStreamName a)
                (Event.logStreamName b)) as [E|E].
    + right. split; [exact E|]. rewrite E, ltb_app in Hab.
      rewrite ltb_app in Hab.
      destruct (JS.ltb (Event.eventId a) (Event.eventId b)) eqn:L;
        [reflexivity|].
      elim Hid. now apply ltb_total.
    + left. rewrite ltb_app_same_length in Hab;
        [| now rewrite (Hl b Hb) | congruence].
      destruct (JS.ltb (Event.logStreamName a) (Event.logStreamName b))
        eqn:L; [reflexivity|].
      elim E. now apply ltb_total.
Qed.

(** X24. When all log stream names have the same length, as the names
    the platform gives have, the normalized events are in ascending order
    of the pair (stream name, identifier): of two events, the earlier
    one has the smaller stream name, or the same stream name and the
    smaller identifier. *)
Theorem normalizer_orders_by_stream_then_id
    (events : list Event.t) (n : nat) :
  Forall (fun e => List.length (Event.logStreamName e) = n) events ->
  StronglySorted
    (fun a b =>
       JS.ltb (Event.logStreamName a) (Event.logStreamName b) = true
       \/ (Event.logStreamName a = Event.logStreamName b
           /\ JS.ltb (Event.eventId a) (Event.eventId b) = true))
    (sortLogs (uniqBy events Event.eventId)).
Proof.
  intros Hlen. apply keyLe_pair_order with (n := n).
  - apply StronglySorted_distinct;
      [apply sortLogs_StronglySorted | apply normalized_NoDup].
  - destruct (uniqByAux_spec Event.eventId events []) as (_ & Hin & _).
    rewrite Forall_forall in *. intros e He. apply Hlen.
    apply (Hin e). eapply Permutation_in; [apply sort_perm | exact He].
Qed.

(** Two streams with names of one length, five events out of order, one
    of them fetched twice: the events of the smaller stream name come
    first, and within a stream the identifiers ascend. *)
Lemma normalizer_orders_witness :
  StronglySorted
    (fun a b =>
       JS.ltb (Event.logStreamName a) (Event.logStreamName b) = true
       \/ (Event.logStreamName a = Event.logStreamName b
           /\ JS.ltb (Event.eventId a) (Event.eventId b) = true))
    (sortLogs (uniqBy twoStreamEvents Event.eventId))
  /\ map (fun event => (Event.logStreamName event, Event.eventId event))
       (sortLogs (uniqBy twoStreamEvents Event.eventId))
     = [ (str "2022/02/01/[$LATEST]3b66f77bc3f24fee8ccd70dd7315144e",
          str "1");
         (str "2022/02/01/[$LATEST]3b66f77bc3f24fee8ccd70dd7315144e",
          str "2");
         (str "2022/02/01/[$LATEST]b5d0c1f7a3e24c0c9a1f6d2e8b7c4a10",
          str "3");
         (str "2022/02/01/[$LATEST]b5d0c1f7a3e24c0c9a1f6d2e8b7c4a10",
          str "4") ].
Proof.
  split; [|reflexivity].
  apply normalizer_orders_by_stream_then_id
    with (n := List.length sampleStream).
  repeat constructor.
Defined.

(** ** Reading a REPORT line with a trace id *)

Lemma isHexWord_last (s : jsstring) :
  isHexWord s = true ->
  exists s' e, s = s' ++ [e] /\ isWhiteSpace e = false.
Proof.
  unfold isHexWord. intros H. apply andb_true_iff in H.
  destruct H as [Hn Hh].
  destruct (exists_last (l := s)) as (s' & e & E).
  - intros ->. discriminate Hn.
  - exists s', e. split; [exact E|]. apply isHexOrDash_nonWhite.
    rewrite forallb_forall in Hh. apply Hh. rewrite E.
    apply in_or_app. right. now left.
Qed.

Lemma isHexWord_hasNo (sep : char) (s : jsstring) :
  isHexOrDash sep = false -> isHexWord s = true -> hasNo sep s = true.
Proof.
  unfold isHexWord. intros Hs H. apply andb_true_iff in H.
  destruct H as [_ H]. unfold hasNo. rewrite forallb_forall in *.
  intros c Hc. apply negb_true_iff. destruct (N.eqb_spec c sep); subst; auto.
  rewrite (H _ Hc) in Hs. discriminate.
Qed.

Lemma reportPart_trace (md : Meta.t) (t : jsstring) :
  isHexWord t = true ->
  reportPart md (LF :: str "XRAY TraceId: " ++ t)
  = Meta.set_xrayTraceId (Some t) md.
Proof.
  intros Ht. pose proof (isHexWord_hasNo SPACE t eq_refl Ht) as Hs.
  destruct (isHexWord_last t Ht) as (t' & e & E & He).
  unfold reportPart.
  change (trim (LF :: str "XRAY TraceId: " ++ t))
    with (trim (str "XRAY TraceId: " ++ t)).
  assert (Htrim : trim (str "XRAY TraceId: " ++ t)
                  = str "XRAY TraceId: " ++ t).
  { rewrite E.
    change (str "XRAY TraceId: " ++ t' ++ [e])
      with ((88%N :: str "RAY TraceId: ") ++ t' ++ ([] ++ [e])).
    apply trim_wrapped; [reflexivity | exact He]. }
  rewrite Htrim.
  change (str "XRAY TraceId: " ++ t)
    with (str "XRAY TraceId" ++ (58%N :: SPACE :: t)).
  change (startsWith (str "Duration")
            (str "XRAY TraceId" ++ 58%N :: SPACE :: t)) with false.
  change (startsWith (str "Memory Size")
            (str "XRAY TraceId" ++ 58%N :: SPACE :: t)) with false.
  change (startsWith (str "Max Memory Used")
            (str "XRAY TraceId" ++ 58%N :: SPACE :: t)) with false.
  rewrite startsWith_prefix. cbv iota.
  change (str "XRAY TraceId" ++ (58%N :: SPACE :: t))
    with (str "XRAY" ++ SPACE :: str "TraceId:" ++ SPACE :: t).
  rewrite (split_app_sep SPACE (str "XRAY")) by reflexivity.
  rewrite (split_app_sep SPACE (str "TraceId:")) by reflexivity.
  rewrite (split_hasNo SPACE t Hs).
  reflexivity.
Qed.

Lemma reportPart_segment (md : Meta.t) (sg : jsstring) :
  isHexWord sg = true ->
  reportPart md (str "SegmentId: " ++ sg) = md.
Proof.
  intros Hg. destruct (isHexWord_last sg Hg) as (g' & e & -> & He).
  unfold reportPart.
  change (str "SegmentId: " ++ g' ++ [e])
    with ((83%N :: str "egmentId: ") ++ g' ++ ([] ++ [e])).
  rewrite trim_wrapped by (reflexivity || exact He).
  reflexivity.
Qed.

Lemma reportLineWithTrace_segments (id d b s u t sg : jsstring) :
  reportLineWithTrace id d b s u t sg
  = join [TAB]
      [str "REPORT RequestId: " ++ id;
       str "Duration: " ++ d ++ str " ms";
       str "Billed Duration: " ++ b ++ str " ms";
       str "Memory Size: " ++ s ++ str " MB";
       str "Max Memory Used: " ++ u ++ str " MB";
       LF :: str "XRAY TraceId: " ++ t;
       str "SegmentId: " ++ sg;
       str "Sampled: true"].
Proof.
  unfold reportLineWithTrace, reportLine. cbn [join].
  now rewrite <- !app_assoc.
Qed.

(** X25. A REPORT line of a traced function (the memory segments
    followed by a tab, a newline, [XRAY TraceId: t], [SegmentId: g] and
    [Sampled: true]) is read back with the trace id [t] beside the
    duration and the memory fields; the segment id and the sampling flag
    are not kept. *)
Theorem report_line_trace_read_back
    (event : Event.t) (runtime : jsstring) (id d b s u t sg : jsstring) :
  trim (Event.message event) = reportLineWithTrace id d b s u t sg ->
  isRequestId id = true ->
  isToken d = true -> isToken b = true ->
  isToken s = true -> isToken u = true ->
  isHexWord t = true -> isHexWord sg = true ->
  parseLogMetadata event runtime
  = Log.mk (Event.eventId event) (reportLineWithTrace id d b s u t sg)
      (Event.timestamp event) (Some REPORT) (Some id)
      (Event.logStreamName event)
      (Some (Meta.mk (Some d) (Some s) (Some u) (Some t) None)).
Proof.
  intros Hm Hid Hd Hb Hs Hu Ht Hg.
  rewrite parseLogMetadata_REPORT
    by (rewrite Hm; unfold reportLineWithTrace, reportLine;
        rewrite <- !app_assoc; apply startsWith_prefix).
  rewrite Hm. f_equal.
  - f_equal. unfold substr, reportLineWithTrace, reportLine.
    rewrite <- !app_assoc.
    change (skipn 18 (str "REPORT RequestId: " ++ ?x)) with x.
    cbn [skipn app str map list_ascii_of_string].
    rewrite firstn_app, (isRequestId_length id Hid), Nat.sub_diag.
    rewrite firstn_all2 by (rewrite (isRequestId_length id Hid); lia).
    cbn [firstn]. apply app_nil_r.
  - f_equal. unfold reportMetadata.
    rewrite reportLineWithTrace_segments, split_of_join; [|discriminate|].
    + cbn [fold_left].
      rewrite (reportPart_head _ _ Hid), (reportPart_duration _ _ Hd),
        reportPart_billed, (reportPart_memSize _ _ Hs),
        (reportPart_memUsed _ _ Hu), (reportPart_trace _ _ Ht),
        (reportPart_segment _ _ Hg).
      reflexivity.
    + destruct (isToken_hasNo _ Hd) as [Hd' _].
      destruct (isToken_hasNo _ Hb) as [Hb' _].
      destruct (isToken_hasNo _ Hs) as [Hs' _].
      destruct (isToken_hasNo _ Hu) as [Hu' _].
      cbn [forallb].
      change (hasNo TAB (LF :: str "XRAY TraceId: " ++ t))
        with (hasNo TAB (str "XRAY TraceId: " ++ t)).
      rewrite !hasNo_app, Hd', Hb', Hs', Hu'.
      rewrite (@isRequestId_hasNo TAB id eq_refl Hid).
      rewrite (@isHexWord_hasNo TAB t eq_refl Ht).
      rewrite (@isHexWord_hasNo TAB sg eq_refl Hg).
      reflexivity.
Qed.

(** The REPORT line of [mockDefault], for the sample request id. *)
Lemma report_line_trace_witness :
  parseLogMetadata
    (Event.mk (str "1") sampleStream 1000
       (reportLineWithTrace sampleRequestId (str "509.89") (str "510")
          (str "1024") (str "80")
          (str "1-61f96332-54eba86c47245db57214005f")
          (str "246eafc77f3a0d33") ++ [TAB; LF]))
    (str "nodejs14.x")
  = Log.mk (str "1")
      (reportLineWithTrace sampleRequestId (str "509.89") (str "510")
         (str "1024") (str "80")
         (str "1-61f96332-54eba86c47245db57214005f")
         (str "246eafc77f3a0d33"))
      1000 (Some REPORT) (Some sampleRequestId) sampleStream
      (Some (Meta.mk (Some (str "509.89")) (Some (str "1024"))
               (Some (str "80"))
               (Some (str "1-61f96332-54eba86c47245db57214005f")) None)).
Proof.
  exact (@report_line_trace_read_back
           (Event.mk (str "1") sampleStream 1000
              (reportLineWithTrace sampleRequestId (str "509.89")
                 (str "510") (str "1024") (str "80")
                 (str "1-61f96332-54eba86c47245db57214005f")
                 (str "246eafc77f3a0d33") ++ [TAB; LF]))
           (str "nodejs14.x") sampleRequestId (str "509.89") (str "510")
           (str "1024") (str "80")
           (str "1-61f96332-54eba86c47245db57214005f")
           (str "246eafc77f3a0d33")
           eq_refl eq_refl eq_refl eq_refl eq_refl eq_refl eq_refl eq_refl).
Defined.
